(** * arXiv daily digest: query construction, feed fetching, summarization

    A shallow embedding of [src/arxiv_fetcher.py], [src/summarizer.py] and of
    the fetch/summarize stages of [run_digest] in [src/main.py], with the
    properties of the specification that concern them.

    Conventions of the embedding.
    - A Python [str] is a [string]: a sequence of characters (code points
      below 256).
    - [None] is [option]'s [None]; a Python exception that leaves a function is
      the [Raised] outcome of the monad [M] below.
    - A paper is a Python [dict] with a fixed set of keys; it is a record
      [Paper] stored in a heap, because [run_digest] writes into the
      dictionaries that [fetch_papers] returned.
    - The clock, the process environment, the HTTP transport and the
      text-generation service form the [World]; every network call is logged
      in it.
    - Console output ([print]) is not modelled. *)

From Stdlib Require Import ZArith QArith Ascii Lia.
From stdpp Require Import gmap strings list.

Open Scope Z_scope.

(* stdpp blocks the unfolding of string concatenation; the proofs below
   compute with it. *)
#[local] Arguments String.append !_ _ / : simpl nomatch.

(** ** Python string operations *)

Module Py.

(** [sep.join(parts)] for a list of strings. *)
Fixpoint join (sep : string) (parts : list string) : string :=
  match parts with
  | [] => ""
  | [x] => x
  | x :: rest => x +:+ sep +:+ join sep rest
  end.

(** [s.startswith(p)]. *)
Fixpoint startswith (p s : string) : bool :=
  match p, s with
  | EmptyString, _ => true
  | String _ _, EmptyString => false
  | String a p', String b s' => if Ascii.eqb a b then startswith p' s' else false
  end.

(** [s[n:]] and [s[:n]] for a natural number [n]. *)
Fixpoint slice_from (n : nat) (s : string) : string :=
  match n, s with
  | O, _ => s
  | S _, EmptyString => ""
  | S n', String _ s' => slice_from n' s'
  end.

Fixpoint slice_to (n : nat) (s : string) : string :=
  match n, s with
  | O, _ => ""
  | S _, EmptyString => ""
  | S n', String c s' => String c (slice_to n' s')
  end.

(** [s.find(sub)]: the least index at which [sub] occurs in [s]; Python's -1
    is [None]. *)
Fixpoint find (sub s : string) : option nat :=
  if startswith sub s then Some O
  else match s with
       | EmptyString => None
       | String _ s' => S <$> find sub s'
       end.

(** [s.split(sep)]: cut at the first occurrence of [sep], go on behind it.
    The recursion is on the remaining text, which gets shorter at every cut;
    [fuel] bounds the number of cuts. *)
Fixpoint split_from (fuel : nat) (sep s : string) : list string :=
  match find sep s with
  | None => [s]
  | Some i =>
      match fuel with
      | O => [s]
      | S fuel' =>
          slice_to i s
            :: split_from fuel' sep (slice_from (i + String.length sep) s)
      end
  end.

(** An empty separator raises [ValueError]: [None]. *)
Definition split (sep s : string) : option (list string) :=
  match sep with
  | EmptyString => None
  | _ => Some (split_from (String.length s) sep s)
  end.

(** [l[-1]]: [None] is Python's [IndexError] on an empty list. *)
Definition last_item {A} (l : list A) : option A := last l.

(** [c.isspace()] on the characters below 256. *)
Definition isspace (c : Ascii.ascii) : bool :=
  let n := Ascii.nat_of_ascii c in
  ((9 <=? n) && (n <=? 13) || (28 <=? n) && (n <=? 32)
   || (n =? 133) || (n =? 160))%nat.

Fixpoint lstrip (s : string) : string :=
  match s with
  | EmptyString => ""
  | String c s' => if isspace c then lstrip s' else s
  end.

Fixpoint rstrip (s : string) : string :=
  match s with
  | EmptyString => ""
  | String c s' =>
      match rstrip s' with
      | EmptyString => if isspace c then "" else String c ""
      | r => String c r
      end
  end.

(** [s.strip()]. *)
Definition strip (s : string) : string := rstrip (lstrip s).

(** [s.replace(old, new)] for a one-character [old]. *)
Fixpoint replace_char (old : Ascii.ascii) (new s : string) : string :=
  match s with
  | EmptyString => ""
  | String c s' =>
      (if Ascii.eqb c old then new else String c "") +:+ replace_char old new s'
  end.

(** [sep.join(parts)] where an item may be [None]: that raises [TypeError],
    here [None]. *)
Definition join_items (sep : string) (parts : list (option string)) : option string :=
  join sep <$> mapM (fun x => x) parts.

End Py.

(** ** The data model *)

(** A [datetime]: aware (the instant in microseconds since the epoch, UTC, and
    the UTC offset it was written with) or naive (wall-clock microseconds). *)
Inductive datetime :=
  | Aware (instant : Z) (utcoffset : Z)
  | Naive (wall : Z).

(** [timedelta(hours=h)] in microseconds. *)
Definition timedelta_hours (h : Z) : Z := h * 3600 * 1000000.

(** Exceptions that can leave the functions modelled here. [InvalidRef] is
    not a Python exception: it marks the use of a reference to no object,
    which no Python program can hold. *)
Inductive exn :=
  | ParseError
  | TypeError
  | ValueError
  | LookupError
  | OverflowError
  | InvalidRef.

(** [d1 >= d2] on datetimes: instants when both are aware, wall clocks when
    both are naive, [TypeError] for one of each. *)
Definition datetime_ge (d1 d2 : datetime) : exn + bool :=
  match d1, d2 with
  | Aware i1 _, Aware i2 _ => inr (i2 <=? i1)
  | Naive w1, Naive w2 => inr (w2 <=? w1)
  | _, _ => inl TypeError
  end.

(** An [xml.etree.ElementTree.Element]: tag (with its namespace in braces),
    attributes, text ([None] when the element has none) and children. *)
#[warnings="-register-all"]
Inductive Element :=
  | Elem (tag : string) (attrib : gmap string string)
         (text : option string) (children : list Element).

Definition tag (e : Element) : string := let 'Elem t _ _ _ := e in t.
Definition attrib (e : Element) : gmap string string := let 'Elem _ a _ _ := e in a.
Definition text (e : Element) : option string := let 'Elem _ _ t _ := e in t.
Definition children (e : Element) : list Element := let 'Elem _ _ _ c := e in c.

(** [NAMESPACE]: the path "atom:name" is the tag "{http://www.w3.org/2005/Atom}name". *)
Definition atom (name : string) : string :=
  "{http://www.w3.org/2005/Atom}" +:+ name.

(** [e.findall(path)] and [e.find(path)] for a path that is one tag: the
    children with that tag in document order, and the first of them. *)
Definition findall (path : string) (e : Element) : list Element :=
  filter (fun c => tag c = path) (children e).

Definition find (path : string) (e : Element) : option Element :=
  head (findall path e).

(** A paper dictionary. The keys of [_parse_entry] are the first eight fields;
    [summary] is [None] as long as the dictionary has no 'summary' key. An
    author is [None] when its name element has no text. *)
Record Paper := {
  id : string;
  title : string;
  authors : list (option string);
  abstract : string;
  published : datetime;
  updated : datetime;
  pdf_url : option string;
  arxiv_url : string;
  summary : option string
}.

(** [paper['summary'] = s]. *)
Definition set_summary (s : string) (paper : Paper) : Paper :=
  {| id := id paper; title := title paper; authors := authors paper;
     abstract := abstract paper; published := published paper;
     updated := updated paper; pdf_url := pdf_url paper;
     arxiv_url := arxiv_url paper; summary := Some s |}.

(** The attributes of an [ArxivFetcher] instance. *)
Record ArxivFetcher := {
  categories : list string;
  time_window_hours : Z;
  max_results : Z;
  cutoff_date : datetime
}.

(** ** The world *)

(** What [urlopen(url)] followed by [response.read()] does: the body, or one
    of the transport errors (name resolution and connection failures are
    [URLError], a status outside 2xx is [HTTPError]). *)
Inductive transport_error :=
  | URLError (reason : string)
  | TimeoutError
  | HTTPError (code : Z).

Inductive http_outcome :=
  | HttpBody (data : string)
  | HttpFails (e : transport_error).

(** A value of the [params] dictionary of [fetch_papers]. *)
Inductive param :=
  | PStr (s : string)
  | PInt (n : Z).

(** The request of [client.chat.completions.create]. A float is the rational
    it denotes; the temperature is only handed on. *)
Record ChatRequest := {
  chat_model : string;
  chat_messages : list (string * string);
  chat_max_tokens : Z;
  chat_temperature : Q
}.

(** The service raises, or answers with choices; a choice is its
    [message.content], which may be [None]. *)
Inductive chat_outcome :=
  | ChatRaises
  | ChatResponse (choices : list (option string)).

(** References to paper dictionaries. *)
Definition loc := nat.

(** The state a run acts on: the UTC clock (microseconds), [os.environ], the
    paper dictionaries, and the requests sent so far to the feed and to the
    text-generation service. *)
Record World := {
  clock : Z;
  environ : gmap string string;
  heap : gmap loc Paper;
  http_log : list string;
  chat_log : list ChatRequest
}.

(** Library functions and remote parties, none of them code of this
    repository: the XML parser ([None] when it raises, and then what it
    raises: [ParseError] on a body that is not well-formed, [LookupError] or
    [ValueError] on an encoding it does not support), the ISO-8601 parser
    ([None]: [ValueError]), [urllib.parse.urlencode], and the answers of the
    feed and of the text-generation service, which may depend on the requests
    made before. *)
Class Platform := {
  ET_fromstring : string -> option Element;
  ET_fromstring_raises : string -> exn;
  fromisoformat : string -> option datetime;
  urlencode : list (string * param) -> string;
  feed_reply : list string -> string -> http_outcome;
  chat_reply : list ChatRequest -> ChatRequest -> chat_outcome
}.

(** ** The monad of effects: state and exceptions *)

Inductive outcome (A : Type) :=
  | Returned (a : A)
  | Raised (e : exn).
Arguments Returned {A} a.
Arguments Raised {A} e.

Definition M (A : Type) : Type := World -> outcome A * World.

Definition ret {A} (a : A) : M A := fun w => (Returned a, w).

Definition raise {A} (e : exn) : M A := fun w => (Raised e, w).

Definition bind {A B} (m : M A) (k : A -> M B) : M B :=
  fun w =>
    match m w with
    | (Returned a, w') => k a w'
    | (Raised e, w') => (Raised e, w')
    end.

(** [try: m] with the outcome handed to the handler. *)
Definition try {A} (m : M A) : M (outcome A) :=
  fun w => let '(r, w') := m w in (Returned r, w').

#[export] Instance M_ret : MRet M := @ret.
#[export] Instance M_bind : MBind M := fun A B k m => bind m k.

(** [datetime.now(timezone.utc)]. *)
Definition datetime_now_utc : M datetime :=
  fun w => (Returned (Aware (clock w) 0), w).

(** [os.getenv(name)]. *)
Definition getenv (name : string) : M (option string) :=
  fun w => (Returned (environ w !! name), w).

(** A new dictionary object. *)
Definition alloc (paper : Paper) : M loc :=
  fun w =>
    let l := fresh (dom (heap w)) in
    (Returned l,
     {| clock := clock w; environ := environ w;
        heap := <[l := paper]> (heap w);
        http_log := http_log w; chat_log := chat_log w |}).

(** Reading the dictionary behind a reference. *)
Definition read (l : loc) : M Paper :=
  fun w =>
    match heap w !! l with
    | Some paper => (Returned paper, w)
    | None => (Raised InvalidRef, w)
    end.

(** Writing into the dictionary behind a reference. *)
Definition modify (l : loc) (f : Paper -> Paper) : M unit :=
  fun w =>
    match heap w !! l with
    | Some paper =>
        (Returned tt,
         {| clock := clock w; environ := environ w;
            heap := <[l := f paper]> (heap w);
            http_log := http_log w; chat_log := chat_log w |})
    | None => (Raised InvalidRef, w)
    end.

(** [urlopen(url)] and [response.read()]: one request to the feed. *)
Definition urlopen_read `{Platform} (url : string) : M http_outcome :=
  fun w =>
    (Returned (feed_reply (http_log w) url),
     {| clock := clock w; environ := environ w; heap := heap w;
        http_log := http_log w ++ [url]; chat_log := chat_log w |}).

(** [client.chat.completions.create(...)]: one request to the service. *)
Definition chat_completions_create `{Platform} (req : ChatRequest) : M chat_outcome :=
  fun w =>
    (Returned (chat_reply (chat_log w) req),
     {| clock := clock w; environ := environ w; heap := heap w;
        http_log := http_log w; chat_log := chat_log w ++ [req] |}).

(** ** [ArxivFetcher] (src/arxiv_fetcher.py) *)

(** [d - timedelta]. *)
Definition datetime_sub (d : datetime) (delta : Z) : datetime :=
  match d with
  | Aware i off => Aware (i - delta) off
  | Naive w => Naive (w - delta)
  end.

(** The range of [datetime]: 0001-01-01T00:00:00 to
    9999-12-31T23:59:59.999999, in microseconds since the epoch. *)
Definition DATETIME_MIN : Z := -62135596800000000.
Definition DATETIME_MAX : Z := 253402300799999999.

(** [timedelta(hours=h)] for an integer [h]: [OverflowError] when the days
    it amounts to exceed 999999999 in magnitude. *)
Definition timedelta_of_hours (h : Z) : exn + Z :=
  if Z.abs (h / 24) <=? 999999999 then inr (timedelta_hours h)
  else inl OverflowError.

(** The wall clock of a datetime. *)
Definition wall (d : datetime) : Z :=
  match d with
  | Aware i off => i + off
  | Naive w => w
  end.

(** [d - delta] as Python computes it: [OverflowError] when the wall clock
    of the result leaves the range of [datetime]. *)
Definition datetime_minus (d : datetime) (delta : Z) : exn + datetime :=
  if (DATETIME_MIN <=? wall d - delta) && (wall d - delta <=? DATETIME_MAX)
  then inr (datetime_sub d delta)
  else inl OverflowError.

(** [ArxivFetcher.__init__]: the cutoff is computed here, from the clock at
    construction; the subtraction raises [OverflowError] for a window that
    leads out of the range of [datetime]. *)
Definition ArxivFetcher__init__ (categories : list string)
    (time_window_hours max_results : Z) : M ArxivFetcher :=
  now ← datetime_now_utc;
  match timedelta_of_hours time_window_hours with
  | inl e => raise e
  | inr delta =>
      match datetime_minus now delta with
      | inl e => raise e
      | inr cutoff =>
          mret {| categories := categories;
                  time_window_hours := time_window_hours;
                  max_results := max_results;
                  cutoff_date := cutoff |}
      end
  end.

(** The body of the loop of [build_query]: the clause of one keyword group. *)
Definition keyword_part (group : list string) : string :=
  if (length group =? 1)%nat then
    match group !! 0%nat with
    | Some kw => "all:" +:+ kw
    | None => ""  (* not reached: the group has one element *)
    end
  else
    let and_terms := Py.join " AND " (map (fun kw => "all:" +:+ kw) group) in
    "(" +:+ and_terms +:+ ")".

(** [ArxivFetcher.build_query]: the loop appends one clause per group to
    [keyword_parts]. *)
Definition build_query (self : ArxivFetcher) (keyword_groups : list (list string))
  : string :=
  let cat_query :=
    Py.join " OR " (map (fun cat => "cat:" +:+ cat) (categories self)) in
  let keyword_parts :=
    fold_left (fun parts group => parts ++ [keyword_part group])
              keyword_groups [] in
  let keyword_query := Py.join " OR " keyword_parts in
  "(" +:+ cat_query +:+ ") AND (" +:+ keyword_query +:+ ")".

(** The loop over the links of an entry: the [href] of the first link whose
    [title] attribute is "pdf". *)
Fixpoint pdf_link (links : list Element) : option string :=
  match links with
  | [] => None
  | link :: rest =>
      if decide (attrib link !! "title" = Some "pdf")
      then attrib link !! "href"
      else pdf_link rest
  end.

(** [arxiv_id.split('/abs/')[-1]]. *)
Definition canonical_id (arxiv_id : string) : option string :=
  pieces ← Py.split "/abs/" arxiv_id; Py.last_item pieces.

(** The [try] block of [_parse_entry]. Whatever is raised inside it
    ([AttributeError] on a missing element or a missing text, [ValueError]
    on a date that does not parse) ends in [return None]: [None] here. *)
Definition entry_fields `{Platform} (entry : Element) : option Paper :=
  arxiv_id ← text <$> find (atom "id") entry;
  title ← Py.strip <$> (find (atom "title") entry ≫= text);
  abstract ← Py.strip <$> (find (atom "summary") entry ≫= text);
  published_str ← find (atom "published") entry ≫= text;
  updated_str ← find (atom "updated") entry ≫= text;
  published ← fromisoformat (Py.replace_char "Z"%char "+00:00" published_str);
  updated ← fromisoformat (Py.replace_char "Z"%char "+00:00" updated_str);
  authors ← mapM (fun author => text <$> find (atom "name") author)
                 (findall (atom "author") entry);
  let pdf_url := pdf_link (findall (atom "link") entry) in
  raw ← arxiv_id;
  ident ← canonical_id raw;
  Some {| id := ident; title := title; authors := authors;
          abstract := abstract; published := published; updated := updated;
          pdf_url := pdf_url; arxiv_url := raw; summary := None |}.

(** [ArxivFetcher._parse_entry]: the dictionary is a new object. *)
Definition _parse_entry `{Platform} (self : ArxivFetcher) (entry : Element)
  : M (option loc) :=
  match entry_fields entry with
  | Some paper => l ← alloc paper; mret (Some l)
  | None => mret None
  end.

Definition BASE_URL : string := "http://export.arxiv.org/api/query".

(** The loop of [fetch_papers] over the entries; [papers] is the list built
    so far. A dictionary of [_parse_entry] is never empty, so [paper and ...]
    tests it against [None] only. *)
Fixpoint fetch_papers_loop `{Platform} (self : ArxivFetcher)
    (entries : list Element) (papers : list loc) : M (list loc) :=
  match entries with
  | [] => mret papers
  | entry :: rest =>
      paper ← _parse_entry self entry;
      match paper with
      | None => fetch_papers_loop self rest papers
      | Some l =>
          d ← read l;
          match datetime_ge (published d) (cutoff_date self) with
          | inl e => raise e
          | inr true => fetch_papers_loop self rest (papers ++ [l])
          | inr false => fetch_papers_loop self rest papers
          end
      end
  end.

(** The URL [fetch_papers] requests. *)
Definition request_url `{Platform} (self : ArxivFetcher)
    (keyword_groups : list (list string)) : string :=
  let query := build_query self keyword_groups in
  let params := [("search_query", PStr query);
                 ("start", PInt 0);
                 ("max_results", PInt (max_results self));
                 ("sortBy", PStr "submittedDate");
                 ("sortOrder", PStr "descending")] in
  BASE_URL +:+ "?" +:+ urlencode params.

(** [ArxivFetcher.fetch_papers]. *)
Definition fetch_papers `{Platform} (self : ArxivFetcher)
    (keyword_groups : list (list string)) : M (list loc) :=
  let url := request_url self keyword_groups in
  response ← urlopen_read url;
  match response with
  | HttpFails _ => mret []
  | HttpBody data =>
      match ET_fromstring data with
      | None => raise (ET_fromstring_raises data)
      | Some root => fetch_papers_loop self (findall (atom "entry") root) []
      end
  end.

(** ** [PaperSummarizer] (src/summarizer.py) *)

(** The attributes of a [PaperSummarizer]; [client] is the API key the
    client was made with. *)
Record PaperSummarizer := {
  model : string;
  max_tokens : Z;
  temperature : Q;
  client : string
}.

(** [PaperSummarizer.__init__]: [not api_key] holds for [None] and for the
    empty string. *)
Definition PaperSummarizer__init__ (model : string) (max_tokens : Z)
    (temperature : Q) : M PaperSummarizer :=
  api_key ← getenv "OPENAI_API_KEY";
  match api_key with
  | None | Some EmptyString => raise ValueError
  | Some key =>
      mret {| model := model; max_tokens := max_tokens;
              temperature := temperature; client := key |}
  end.

Definition nl : string := String (Ascii.ascii_of_nat 10) "".

(** [PaperSummarizer._build_prompt]; [None] is the [TypeError] of [join] on
    an author that is [None]. *)
Definition _build_prompt (paper : Paper) : option string :=
  joined ← Py.join_items ", " (take 3 (authors paper));
  let authors_str :=
    if (3 <? length (authors paper))%nat then joined +:+ " et al." else joined in
  Some ("Title: " +:+ title paper +:+ nl +:+ nl
        +:+ "Authors: " +:+ authors_str +:+ nl +:+ nl
        +:+ "Abstract: " +:+ abstract paper +:+ nl +:+ nl
        +:+ "Please provide a concise summary (2-3 sentences) highlighting:" +:+ nl
        +:+ "1. What problem/question the paper addresses" +:+ nl
        +:+ "2. The main approach or method used" +:+ nl
        +:+ "3. Key findings or contributions" +:+ nl +:+ nl
        +:+ "Keep it accessible to materials science researchers.").

Definition SYSTEM_CONTENT : string :=
  "You are a materials science researcher. Summarize "
  +:+ "academic papers concisely, focusing on key findings, "
  +:+ "methods, and significance. Keep summaries under 100 words.".

(** The request [summarize_paper] sends for a prompt. *)
Definition chat_request (self : PaperSummarizer) (prompt : string) : ChatRequest :=
  {| chat_model := model self;
     chat_messages := [("system", SYSTEM_CONTENT); ("user", prompt)];
     chat_max_tokens := max_tokens self;
     chat_temperature := temperature self |}.

(** [response.choices[0].message.content.strip()] inside the [try] block:
    [None] when the call raised, when there is no choice ([IndexError]) or
    when the content is [None] ([AttributeError]). *)
Definition response_summary (response : chat_outcome) : option string :=
  match response with
  | ChatRaises => None
  | ChatResponse choices =>
      content ← choices !! 0%nat; Py.strip <$> content
  end.

(** [PaperSummarizer.summarize_paper]: the prompt is built outside the
    [try] block. *)
Definition summarize_paper `{Platform} (self : PaperSummarizer) (paper : loc)
  : M (option string) :=
  d ← read paper;
  match _build_prompt d with
  | None => raise TypeError
  | Some prompt =>
      response ← chat_completions_create (chat_request self prompt);
      mret (response_summary response)
  end.

(** [summary if summary else "Summary unavailable"]. *)
Definition summary_or_sentinel (summary : option string) : string :=
  match summary with
  | None | Some EmptyString => "Summary unavailable"
  | Some s => s
  end.

(** [paper.copy()]. *)
Definition copy (paper : loc) : M loc := d ← read paper; alloc d.

(** The loop of [summarize_papers]; [summarized] is the list built so far. *)
Fixpoint summarize_papers_loop `{Platform} (self : PaperSummarizer)
    (papers : list loc) (summarized : list loc) : M (list loc) :=
  match papers with
  | [] => mret summarized
  | paper :: rest =>
      summary ← summarize_paper self paper;
      paper_with_summary ← copy paper;
      modify paper_with_summary (set_summary (summary_or_sentinel summary));;
      summarize_papers_loop self rest (summarized ++ [paper_with_summary])
  end.

(** [PaperSummarizer.summarize_papers]. *)
Definition summarize_papers `{Platform} (self : PaperSummarizer)
    (papers : list loc) : M (list loc) :=
  summarize_papers_loop self papers [].

(** ** [run_digest] (src/main.py) *)

(** The entries of the configuration that the fetch and summarize stages
    read. *)
Record Config := {
  arxiv_categories : list string;
  arxiv_time_window_hours : Z;
  arxiv_max_results : Z;
  keywords : list (list string);
  openai_model : string;
  openai_max_tokens : Z;
  openai_temperature : Q
}.

Definition NO_KEY_SUMMARY : string := "AI summary unavailable (no API key)".

(** [for paper in papers: paper['summary'] = "AI summary unavailable (no API key)"]. *)
Fixpoint add_placeholders (papers : list loc) : M unit :=
  match papers with
  | [] => mret tt
  | paper :: rest =>
      modify paper (set_summary NO_KEY_SUMMARY);;
      add_placeholders rest
  end.

(** The summarization step of [run_digest]: the [try]/[except ValueError]/
    [else] around the construction of the summarizer. *)
Definition summarize_stage `{Platform} (config : Config) (papers : list loc)
  : M (list loc) :=
  made ← try (PaperSummarizer__init__ (openai_model config)
                (openai_max_tokens config) (openai_temperature config));
  match made with
  | Raised ValueError => add_placeholders papers;; mret papers
  | Raised e => raise e
  | Returned summarizer => summarize_papers summarizer papers
  end.

(** [run_digest] for a loaded configuration, up to [summarized_papers];
    [None] is the early return on an empty fetch. The output through the
    notifier that follows is not part of this model. *)
Definition run_digest `{Platform} (config : Config) : M (option (list loc)) :=
  fetcher ← ArxivFetcher__init__ (arxiv_categories config)
              (arxiv_time_window_hours config) (arxiv_max_results config);
  papers ← fetch_papers fetcher (keywords config);
  match papers with
  | [] => mret None
  | _ => summarized_papers ← summarize_stage config papers;
         mret (Some summarized_papers)
  end.

(** ** The specification's own notions *)

(** The rendering of one keyword group in the words of the specification:
    a single term stands alone, several terms are AND-joined in parentheses.
    The specification says nothing of an empty group. *)
Inductive group_clause : list string -> string -> Prop :=
  | group_clause_single t :
      group_clause [t] ("all:" +:+ t)
  | group_clause_many t1 t2 ts :
      group_clause (t1 :: t2 :: ts)
        ("(" +:+ Py.join " AND " (map (fun t => "all:" +:+ t) (t1 :: t2 :: ts)) +:+ ")").

(** [sub] occurs in [s] at index [i]. *)
Definition occurs_at (sub s : string) (i : nat) : Prop :=
  exists pre post, s = pre +:+ sub +:+ post /\ String.length pre = i.

(** [t] is the substring of [s] after the last occurrence of [sub]: the
    occurrence it follows is at the greatest index at which [sub] occurs. *)
Definition after_last_occurrence (sub s t : string) : Prop :=
  exists pre,
    s = pre +:+ sub +:+ t /\
    forall j, occurs_at sub s j -> (j <= String.length pre)%nat.

(** [t] is what is left of [s] behind the last cut when [s] is cut at the
    first occurrence of [sep], then at the first occurrence behind that cut,
    and so on: occurrences that overlap a cut are not seen. *)
Inductive last_piece (sep : string) : string -> string -> Prop :=
  | last_piece_whole s :
      (forall i, ~ occurs_at sep s i) -> last_piece sep s s
  | last_piece_cut pre rest t :
      (forall j, occurs_at sep (pre +:+ sep +:+ rest) j -> (String.length pre <= j)%nat) ->
      last_piece sep rest t ->
      last_piece sep (pre +:+ sep +:+ rest) t.

(** The date filter in the words of the specification: the published
    timestamp is at or after the cutoff instant. *)
Definition recent_instant (cutoff : Z) (d : datetime) : bool :=
  match d with
  | Aware instant _ => cutoff <=? instant
  | Naive _ => false
  end.

Definition recent (cutoff : Z) (paper : Paper) : bool :=
  recent_instant cutoff (published paper).

Definition aware (d : datetime) : Prop :=
  match d with Aware _ _ => True | Naive _ => False end.

(** The worlds [w] and [w'] differ in the heap at most. *)
Definition same_outside_heap (w w' : World) : Prop :=
  clock w' = clock w /\ environ w' = environ w /\
  http_log w' = http_log w /\ chat_log w' = chat_log w.

(** The dictionaries behind a list of references. *)
Definition papers_at (w : World) (ls : list loc) : list (option Paper) :=
  (fun l => heap w !! l) <$> ls.

(** The window [hours] can be subtracted from the time [now]: the timedelta
    exists and the cutoff is within the range of [datetime]. *)
Definition window_in_range (now hours : Z) : Prop :=
  Z.abs (hours / 24) <= 999999999 /\
  DATETIME_MIN <= now - timedelta_hours hours <= DATETIME_MAX.

(** The world at another time. *)
Definition at_time (now : Z) (w : World) : World :=
  {| clock := now; environ := environ w; heap := heap w;
     http_log := http_log w; chat_log := chat_log w |}.

(** A computation that does not look at the clock: run at another time, it
    does the same. *)
Definition clock_free {A} (m : M A) : Prop :=
  forall now w,
    m (at_time now w) = let '(r, w') := m w in (r, at_time now w').

(** The text an answer of the service carries, if any: the stripped content
    of its first choice, when that is not empty. The call has failed when
    there is none. *)
Definition answer_text (answer : chat_outcome) : option string :=
  match answer with
  | ChatResponse (Some content :: _) =>
      if decide (Py.strip content = "") then None else Some (Py.strip content)
  | _ => None
  end.

(** Two records agree on every field but 'summary'. *)
Definition agree_except_summary (p q : Paper) : Prop :=
  id p = id q /\ title p = title q /\ authors p = authors q /\
  abstract p = abstract q /\ published p = published q /\
  updated p = updated q /\ pdf_url p = pdf_url q /\ arxiv_url p = arxiv_url q.

(** The requests [summarize_papers] sends for a list of records, and the
    records it builds when the service has seen [log] before. *)
Definition requests (self : PaperSummarizer) (ps : list Paper) : list ChatRequest :=
  omap (fun p => chat_request self <$> _build_prompt p) ps.

Fixpoint summarized_records `{Platform} (self : PaperSummarizer)
    (log : list ChatRequest) (ps : list Paper) : list Paper :=
  match ps with
  | [] => []
  | p :: rest =>
      match _build_prompt p with
      | Some prompt =>
          let req := chat_request self prompt in
          set_summary (summary_or_sentinel (response_summary (chat_reply log req))) p
            :: summarized_records self (log ++ [req]) rest
      | None => []
      end
  end.

(** ** Notions for the properties of the whole code *)

(** [sub] occurs somewhere in [s]. *)
Definition contains (sub s : string) : Prop := exists i, occurs_at sub s i.

(** The entries of the feed that answers the request of [fetch_papers] in
    the world [w]; none when the transport fails or the body is not XML. *)
Definition feed_entries `{Platform} (self : ArxivFetcher)
    (keyword_groups : list (list string)) (w : World) : list Element :=
  match feed_reply (http_log w) (request_url self keyword_groups) with
  | HttpBody data =>
      match ET_fromstring data with
      | Some root => findall (atom "entry") root
      | None => []
      end
  | HttpFails _ => []
  end.

(** The first and the last character of a string. *)
Definition first_char (s : string) : option ascii :=
  match s with
  | EmptyString => None
  | String c _ => Some c
  end.

Fixpoint last_char (s : string) : option ascii :=
  match s with
  | EmptyString => None
  | String c EmptyString => Some c
  | String _ rest => last_char rest
  end.

(** No whitespace at either end of a string. *)
Definition stripped (s : string) : Prop :=
  (forall c, first_char s = Some c -> Py.isspace c = false) /\
  (forall c, last_char s = Some c -> Py.isspace c = false).

(** [paper['pdf_url'] = u] on a record. *)
Definition set_pdf_url (u : option string) (paper : Paper) : Paper :=
  {| id := id paper; title := title paper; authors := authors paper;
     abstract := abstract paper; published := published paper;
     updated := updated paper; pdf_url := u;
     arxiv_url := arxiv_url paper; summary := summary paper |}.

(** The children of an element that are not link elements. *)
Definition other_children (e : Element) : list Element :=
  filter (fun c => tag c <> atom "link") (children e).

(** The character [c] is somewhere in [s]. *)
Fixpoint has_char (c : ascii) (s : string) : bool :=
  match s with
  | EmptyString => false
  | String c' rest => Ascii.eqb c' c || has_char c rest
  end.

(** Nothing but whitespace. *)
Fixpoint blank (s : string) : bool :=
  match s with
  | EmptyString => true
  | String c rest => Py.isspace c && blank rest
  end.

(** ** Sample data

    A feed, a clock and service answers on which the statements below are
    instantiated. *)

Module Sample.

Definition T0 : Z := 1735689600000000.  (* 2025-01-01T00:00:00Z *)
Definition hour : Z := 3600000000.

(** The ISO-8601 parser on the dates of the sample feed. *)
Definition iso (s : string) : option datetime :=
  if decide (s = "2025-01-01T00:00:00+00:00") then Some (Aware T0 0)
  else if decide (s = "2025-01-01T01:00:00+00:00") then Some (Aware (T0 + hour) 0)
  else if decide (s = "2024-12-31T23:00:00+00:00") then Some (Aware (T0 - hour) 0)
  else if decide (s = "2025-01-01T00:00:00") then Some (Naive T0)
  else None.

Definition el (name : string) (content : option string) (sub : list Element)
  : Element :=
  Elem (atom name) ∅ content sub.

Definition entry (raw_id ti date : string) : Element :=
  el "entry" None
    [el "id" (Some raw_id) [];
     el "title" (Some ti) [];
     el "summary" (Some "  An abstract.  ") [];
     el "published" (Some date) [];
     el "updated" (Some date) [];
     el "author" None [el "name" (Some "A. Author") []];
     Elem (atom "link") {[ "title" := "pdf"; "href" := "http://arxiv.org/pdf/x" ]}
          None []].

(** An entry without a title. *)
Definition entry_without_title : Element :=
  el "entry" None
    [el "id" (Some "http://arxiv.org/abs/2101.00003v1") [];
     el "summary" (Some "text") [];
     el "published" (Some "2025-01-01T01:00:00Z") [];
     el "updated" (Some "2025-01-01T01:00:00Z") []].

Definition e1 := entry "http://arxiv.org/abs/2101.00001v2" "One" "2025-01-01T01:00:00Z".
Definition e2 := entry "http://arxiv.org/abs/2101.00002v1" "Two" "2025-01-01T00:00:00Z".
Definition e4 := entry "http://arxiv.org/abs/2101.00004v1" "Four" "2025-01-01T01:00:00Z".
Definition e5 := entry "http://arxiv.org/abs/2101.00005v3" "Five" "2025-01-01T00:00:00Z".
Definition e_old := entry "http://arxiv.org/abs/2101.00006v1" "Old" "2024-12-31T23:00:00Z".

(** Five entries, the third of them malformed. *)
Definition feed5 : Element :=
  el "feed" None [e1; e2; entry_without_title; e4; e5].

(** The entry [e1] without its link, and with a second pdf link behind a
    link of another kind. *)
Definition e1_without_link : Element :=
  el "entry" None
    [el "id" (Some "http://arxiv.org/abs/2101.00001v2") [];
     el "title" (Some "One") [];
     el "summary" (Some "  An abstract.  ") [];
     el "published" (Some "2025-01-01T01:00:00Z") [];
     el "updated" (Some "2025-01-01T01:00:00Z") [];
     el "author" None [el "name" (Some "A. Author") []]].

Definition e1_with_links : Element :=
  el "entry" None
    [el "id" (Some "http://arxiv.org/abs/2101.00001v2") [];
     Elem (atom "link") {[ "rel" := "alternate"; "href" := "http://arxiv.org/abs/x" ]}
          None [];
     el "title" (Some "One") [];
     el "summary" (Some "  An abstract.  ") [];
     el "published" (Some "2025-01-01T01:00:00Z") [];
     Elem (atom "link") {[ "title" := "pdf"; "href" := "http://arxiv.org/pdf/first" ]}
          None [];
     el "updated" (Some "2025-01-01T01:00:00Z") [];
     el "author" None [el "name" (Some "A. Author") []];
     Elem (atom "link") {[ "title" := "pdf"; "href" := "http://arxiv.org/pdf/second" ]}
          None []].

(** An entry whose dates carry no UTC offset. *)
Definition e_naive :=
  entry "http://arxiv.org/abs/2101.00007v1" "Naive" "2025-01-01T00:00:00".

Definition feed_naive : Element :=
  el "feed" None [e1; e_naive; e2].

(** Three entries: after, at and before midnight. *)
Definition feed3 : Element :=
  el "feed" None [e1; e2; e_old].

(** A platform whose feed holds [root] and answers every request with
    [answer]; the service raises on the second call and answers the
    others. *)
Definition platform_of (root : Element) (answer : http_outcome) : Platform := {|
  ET_fromstring body := if decide (body = "<feed>") then Some root else None;
  ET_fromstring_raises body := ParseError;
  fromisoformat := iso;
  urlencode params := "search_query=q";
  feed_reply log url := answer;
  chat_reply log req :=
    match length log with
    | 1%nat => ChatRaises
    | _ => ChatResponse [Some " A real summary. "]
    end
|}.

Definition platform : Platform := platform_of feed5 (HttpBody "<feed>").

Definition platform_offline : Platform :=
  platform_of feed5 (HttpFails (URLError "Name or service not known")).

Definition fetcher : ArxivFetcher :=
  {| categories := ["cond-mat.mtrl-sci"; "physics.comp-ph"];
     time_window_hours := 24;
     max_results := 50;
     cutoff_date := Aware T0 0 |}.

Definition world (now : Z) (env : gmap string string) : World :=
  {| clock := now; environ := env; heap := ∅; http_log := []; chat_log := [] |}.

Definition paper (n ti : string) (inst : Z) : Paper :=
  {| id := n; title := ti; authors := [Some "A. Author"; Some "B. Author"];
     abstract := "An abstract."; published := Aware inst 0;
     updated := Aware inst 0; pdf_url := None;
     arxiv_url := "http://arxiv.org/abs/" +:+ n; summary := None |}.

Definition paper1 := paper "2101.00001v2" "One" (T0 + hour).
Definition paper2 := paper "2101.00002v1" "Two" T0.
Definition paper3 := paper "2101.00004v1" "Four" (T0 + hour).

(** A world after a fetch of three papers. *)
Definition fetched (env : gmap string string) : World :=
  {| clock := T0 + 24 * hour; environ := env;
     heap := {[ 0%nat := paper1; 1%nat := paper2; 2%nat := paper3 ]};
     http_log := ["http://export.arxiv.org/api/query?search_query=q"];
     chat_log := [] |}.

(** A world with one paper, whose only author has no name text. *)
Definition fetched_nameless : World :=
  {| clock := T0 + 24 * hour; environ := ∅;
     heap := {[ 0%nat :=
                  {| id := "2101.00008v1"; title := "Nameless";
                     authors := [None]; abstract := "An abstract.";
                     published := Aware T0 0; updated := Aware T0 0;
                     pdf_url := None;
                     arxiv_url := "http://arxiv.org/abs/2101.00008v1";
                     summary := None |} ]};
     http_log := []; chat_log := [] |}.

Definition summarizer : PaperSummarizer :=
  {| model := "gpt-4o-mini"; max_tokens := 150; temperature := 3 # 10;
     client := "sk-sample" |}.

Definition config : Config :=
  {| arxiv_categories := ["cond-mat.mtrl-sci"];
     arxiv_time_window_hours := 24;
     arxiv_max_results := 50;
     keywords := [["simulation"]];
     openai_model := "gpt-4o-mini";
     openai_max_tokens := 150;
     openai_temperature := 3 # 10 |}.

End Sample.

(** * Properties *)

(** ** Strings *)

Section Strings.

Lemma append_nil_r s : s +:+ "" = s.
Proof. induction s as [|c s IH]; simpl; congruence. Qed.

Lemma append_assoc s1 s2 s3 : (s1 +:+ s2) +:+ s3 = s1 +:+ s2 +:+ s3.
Proof. induction s1 as [|c s1 IH]; simpl; congruence. Qed.

Lemma length_append s1 s2 :
  String.length (s1 +:+ s2) = (String.length s1 + String.length s2)%nat.
Proof. induction s1 as [|c s1 IH]; simpl; congruence. Qed.

Lemma startswith_app p s : Py.startswith p s = true <-> exists t, s = p +:+ t.
Proof.
  revert s. induction p as [|a p IH]; intros s; simpl.
  - split; eauto.
  - destruct s as [|b s].
    + split; [discriminate | intros [t Ht]; discriminate].
    + destruct (Ascii.eqb_spec a b) as [->|Hab].
      * rewrite IH. split; intros [t Ht]; exists t; congruence.
      * split; [discriminate | intros [t Ht]; congruence].
Qed.

Lemma slice_from_app pre s k :
  Py.slice_from (String.length pre + k) (pre +:+ s) = Py.slice_from k s.
Proof. induction pre as [|c pre IH]; simpl; auto. Qed.

Lemma slice_from_length pre s : Py.slice_from (String.length pre) (pre +:+ s) = s.
Proof.
  rewrite <- (Nat.add_0_r (String.length pre)), slice_from_app.
  by destruct s.
Qed.

Lemma slice_to_length pre s : Py.slice_to (String.length pre) (pre +:+ s) = pre.
Proof. induction pre as [|c pre IH]; simpl; [by destruct s | congruence]. Qed.

Lemma slice_to_from n s : Py.slice_to n s +:+ Py.slice_from n s = s.
Proof.
  revert s. induction n as [|n IH]; intros [|c s]; simpl; auto.
  by rewrite IH.
Qed.

Lemma length_slice_to n s :
  (n <= String.length s)%nat -> String.length (Py.slice_to n s) = n.
Proof.
  revert s. induction n as [|n IH]; intros [|c s]; simpl; auto; try lia.
  intros Hn. rewrite IH; lia.
Qed.

Lemma length_slice_from n s :
  String.length (Py.slice_from n s) = (String.length s - n)%nat.
Proof. revert s. induction n as [|n IH]; intros [|c s]; simpl; auto. Qed.

(** An occurrence, read off the text that starts at the index. *)
Lemma occurs_at_startswith sub s i :
  sub <> "" ->
  occurs_at sub s i <-> Py.startswith sub (Py.slice_from i s) = true.
Proof.
  intros Hsub. rewrite startswith_app. split.
  - intros (pre & post & -> & <-). exists post. apply slice_from_length.
  - intros [post Hpost]. exists (Py.slice_to i s), post.
    assert (i <= String.length s)%nat as Hi.
    { destruct (decide (i <= String.length s)%nat) as [|Hgt]; [done|].
      pose proof (length_slice_from i s) as Hlen.
      rewrite Hpost, length_append in Hlen.
      destruct sub; [done|]. simpl in Hlen. lia. }
    split; [|by apply length_slice_to].
    rewrite <- Hpost. symmetry. apply slice_to_from.
Qed.

Lemma occurs_at_shift sub pre s j :
  sub <> "" ->
  occurs_at sub (pre +:+ s) (String.length pre + j) <-> occurs_at sub s j.
Proof.
  intros Hsub. by rewrite !occurs_at_startswith, slice_from_app.
Qed.

Lemma find_Some sub s i :
  Py.find sub s = Some i ->
  Py.startswith sub (Py.slice_from i s) = true /\
  forall j, (j < i)%nat -> Py.startswith sub (Py.slice_from j s) = false.
Proof.
  revert i. induction s as [|c s IH]; intros i.
  - unfold Py.find. destruct (Py.startswith sub "") eqn:Hp; [|discriminate].
    intros [= <-]. split; [done | lia].
  - cbn [Py.find]. destruct (Py.startswith sub (String c s)) eqn:Hp.
    + intros [= <-]. split; [done | lia].
    + destruct (Py.find sub s) as [i'|] eqn:Hf; [|discriminate].
      intros [= <-]. destruct (IH i' eq_refl) as [Hocc Hmin].
      split; [done|]. intros [|j] Hj; [done|]. apply Hmin. lia.
Qed.

Lemma find_None sub s j :
  Py.find sub s = None -> Py.startswith sub (Py.slice_from j s) = false.
Proof.
  revert j. induction s as [|c s IH]; intros j.
  - unfold Py.find. destruct (Py.startswith sub "") eqn:Hp; [discriminate|].
    intros _. by destruct j.
  - cbn [Py.find]. destruct (Py.startswith sub (String c s)) eqn:Hp; [discriminate|].
    destruct (Py.find sub s) as [i'|] eqn:Hf; [discriminate|].
    intros _. destruct j as [|j]; [done|]. by apply IH.
Qed.

Lemma find_is_Some sub s i :
  Py.startswith sub (Py.slice_from i s) = true -> is_Some (Py.find sub s).
Proof.
  intros Hocc. destruct (Py.find sub s) eqn:Hf; [eauto|].
  by rewrite (find_None sub s i Hf) in Hocc.
Qed.

(** The last piece of a split is the [last_piece] of the specification. *)
Lemma split_from_last_piece sep fuel s :
  sep <> "" -> (String.length s <= fuel)%nat ->
  exists t, last (Py.split_from fuel sep s) = Some t /\ last_piece sep s t.
Proof.
  intros Hsep. revert s. induction fuel as [|fuel IH]; intros s Hlen.
  - destruct s; [|simpl in Hlen; lia]. exists "". split.
    + destruct sep; [done|]. reflexivity.
    + apply last_piece_whole. intros i. rewrite occurs_at_startswith by done.
      destruct sep; [done|]. by destruct i.
  - cbn [Py.split_from]. destruct (Py.find sep s) as [i|] eqn:Hf.
    + destruct (find_Some _ _ _ Hf) as [Hocc Hmin].
      apply occurs_at_startswith in Hocc as (pre & post & -> & <-); [|done].
      rewrite slice_to_length.
      replace (Py.slice_from _ _) with post.
      2:{ rewrite <- append_assoc, <- length_append.
          by rewrite slice_from_length. }
      destruct (IH post) as (t & Hlast & Hpiece).
      { rewrite !length_append in Hlen. destruct sep; [done|].
        simpl in Hlen. lia. }
      exists t. split.
      * rewrite last_cons, Hlast. done.
      * apply last_piece_cut; [|done]. intros j Hj.
        destruct (decide (String.length pre <= j)%nat) as [|Hlt]; [done|].
        apply occurs_at_startswith in Hj; [|done].
        rewrite Hmin in Hj; [done | lia].
    + exists s. split; [done|]. apply last_piece_whole. intros i.
      rewrite occurs_at_startswith by done. by rewrite (find_None _ _ i Hf).
Qed.

Lemma last_piece_no_occurrence sep s t :
  sep <> "" -> last_piece sep s t -> (forall i, ~ occurs_at sep s i) -> t = s.
Proof.
  intros Hsep [s' _|pre rest t' _ _] Hno; [done|].
  destruct (Hno (String.length pre)). by exists pre, rest.
Qed.

(** Two occurrences of "/abs/" that overlap share one slash: the text
    reads "/abs/abs/" there. *)
Lemma abs_overlap pre rest j :
  occurs_at "/abs/" (pre +:+ "/abs/" +:+ rest) j ->
  (String.length pre < j < String.length pre + 5)%nat ->
  occurs_at "/abs/abs/" (pre +:+ "/abs/" +:+ rest) (String.length pre).
Proof.
  intros Hj Hrange.
  replace j with (String.length pre + (j - String.length pre))%nat in Hj by lia.
  apply occurs_at_shift, occurs_at_startswith in Hj; [|done..].
  assert (j - String.length pre = 1 \/ j - String.length pre = 2 \/
          j - String.length pre = 3 \/ j - String.length pre = 4)%nat
    as [Hk|[Hk|[Hk|Hk]]] by lia;
    rewrite Hk in Hj; simpl in Hj; try discriminate.
  change (Py.startswith "abs/" rest = true) in Hj.
  apply startswith_app in Hj as [post ->].
  by exists pre, post.
Qed.

Lemma last_piece_after_last_occurrence s t :
  last_piece "/abs/" s t ->
  (exists i, occurs_at "/abs/" s i) ->
  (forall i, ~ occurs_at "/abs/abs/" s i) ->
  after_last_occurrence "/abs/" s t.
Proof.
  induction 1 as [s Hno|pre rest t Hfirst Hpiece IH].
  - intros [i Hi] _. destruct (Hno i Hi).
  - intros _ Hnov.
    assert (forall j, occurs_at "/abs/" (pre +:+ "/abs/" +:+ rest) j ->
              (String.length pre + 5 <= j)%nat ->
              occurs_at "/abs/" rest (j - (String.length pre + 5))) as Hbehind.
    { intros j Hj Hge.
      replace j with (String.length (pre +:+ "/abs/")
                      + (j - (String.length pre + 5)))%nat in Hj
        by (rewrite length_append; simpl; lia).
      rewrite <- append_assoc in Hj. by apply occurs_at_shift in Hj. }
    destruct (Py.find "/abs/" rest) as [i|] eqn:Hf.
    + destruct IH as (pre' & Hrest & Hmax).
      { exists i. apply occurs_at_startswith; [done|]. by apply find_Some. }
      { intros k Hk. apply (Hnov (String.length (pre +:+ "/abs/") + k)%nat).
        rewrite <- append_assoc. by apply occurs_at_shift. }
      exists (pre +:+ "/abs/" +:+ pre'). split.
      { rewrite Hrest at 1. by rewrite !append_assoc. }
      intros j Hj. rewrite !length_append. simpl String.length.
      destruct (decide (String.length pre + 5 <= j)%nat) as [Hge|]; [|lia].
      specialize (Hmax _ (Hbehind j Hj Hge)). lia.
    + assert (forall i, ~ occurs_at "/abs/" rest i) as Hno.
      { intros i. rewrite occurs_at_startswith by done.
        by rewrite (find_None _ _ i Hf). }
      rewrite (last_piece_no_occurrence "/abs/" rest t ltac:(done) Hpiece Hno).
      exists pre. split; [done|]. intros j Hj.
      destruct (decide (j <= String.length pre)%nat) as [|Hgt]; [done|].
      destruct (decide (String.length pre + 5 <= j)%nat) as [Hge|Hlt].
      * destruct (Hno _ (Hbehind j Hj Hge)).
      * destruct (Hnov (String.length pre)). apply (abs_overlap pre rest j); [done|lia].
Qed.

Lemma canonical_id_last_piece raw :
  exists t, canonical_id raw = Some t /\ last_piece "/abs/" raw t.
Proof.
  destruct (split_from_last_piece "/abs/" (String.length raw) raw)
    as (t & Hlast & Hpiece); [done|lia|].
  exists t. split; [|done]. unfold canonical_id, Py.split. simpl. exact Hlast.
Qed.

End Strings.

Section QueryBuilder.

Lemma keyword_part_clause group :
  group <> [] -> group_clause group (keyword_part group).
Proof.
  destruct group as [|t1 [|t2 ts]]; intros Hne.
  - congruence.
  - apply group_clause_single.
  - apply group_clause_many.
Qed.

Lemma keyword_parts_loop groups acc :
  fold_left (fun parts group => parts ++ [keyword_part group]) groups acc
  = acc ++ map keyword_part groups.
Proof.
  revert acc. induction groups as [|g groups IH]; intros acc; simpl.
  - by rewrite app_nil_r.
  - rewrite IH. by rewrite <- app_assoc.
Qed.

(** C1. For every category list and every list of non-empty keyword groups,
    [build_query] returns exactly "(cats) AND (kws)": cats is the list of
    "cat:c" joined by " OR ", kws the per-group clauses joined by " OR ",
    where a group of one term t gives "all:t" and a group of several terms
    gives "(all:t1 AND ... AND all:tn)". *)
Theorem build_query_exact (self : ArxivFetcher) (keyword_groups : list (list string)) :
  Forall (fun group => group <> []) keyword_groups ->
  exists clauses,
    Forall2 group_clause keyword_groups clauses /\
    build_query self keyword_groups
    = "(" +:+ Py.join " OR " (map (fun c => "cat:" +:+ c) (categories self))
      +:+ ") AND (" +:+ Py.join " OR " clauses +:+ ")".
Proof.
  intros Hne. exists (map keyword_part keyword_groups). split.
  - induction Hne as [|g gs Hg _ IH]; simpl; constructor; auto.
    by apply keyword_part_clause.
  - unfold build_query. by rewrite keyword_parts_loop.
Qed.

Lemma build_query_exact_witness :
  exists clauses,
    Forall2 group_clause [["dislocation"; "MD"]; ["atomistic"]] clauses /\
    build_query Sample.fetcher [["dislocation"; "MD"]; ["atomistic"]]
    = "(" +:+ Py.join " OR " ["cat:cond-mat.mtrl-sci"; "cat:physics.comp-ph"]
      +:+ ") AND (" +:+ Py.join " OR " clauses +:+ ")".
Proof.
  apply (build_query_exact Sample.fetcher [["dislocation"; "MD"]; ["atomistic"]]).
  repeat constructor; discriminate.
Defined.

End QueryBuilder.

(** ** Canonical identifiers *)

Section CanonicalId.

Context `{Platform}.

Lemma find_first sub s i :
  Py.startswith sub (Py.slice_from i s) = true ->
  (forall j, (j < i)%nat -> Py.startswith sub (Py.slice_from j s) = false) ->
  Py.find sub s = Some i.
Proof.
  intros Hocc Hmin. destruct (find_is_Some _ _ _ Hocc) as [i' Hf].
  destruct (find_Some _ _ _ Hf) as [Hocc' Hmin']. rewrite Hf. f_equal.
  destruct (Nat.lt_trichotomy i' i) as [Hlt|[->|Hgt]]; [|done|].
  - by rewrite (Hmin _ Hlt) in Hocc'.
  - by rewrite (Hmin' _ Hgt) in Hocc.
Qed.

Lemma split_from_None fuel sep s :
  Py.find sep s = None -> Py.split_from fuel sep s = [s].
Proof. intros Hf. destruct fuel; simpl; by rewrite Hf. Qed.

Lemma split_from_cut sep fuel pre tok :
  Py.find sep (pre +:+ sep +:+ tok) = Some (String.length pre) ->
  Py.split_from (S fuel) sep (pre +:+ sep +:+ tok)
  = pre :: Py.split_from fuel sep tok.
Proof.
  intros Hf. cbn [Py.split_from]. rewrite Hf.
  rewrite slice_to_length. f_equal. f_equal.
  rewrite <- append_assoc, <- length_append. apply slice_from_length.
Qed.

(** The prefix up to the first "/abs/" is cut off; a token without "/abs/"
    behind it is the identifier. *)
Lemma canonical_id_cut pre tok :
  (forall j, occurs_at "/abs/" (pre +:+ "/abs/" +:+ tok) j -> (String.length pre <= j)%nat) ->
  (forall i, ~ occurs_at "/abs/" tok i) ->
  canonical_id (pre +:+ "/abs/" +:+ tok) = Some tok.
Proof.
  intros Hfirst Htok.
  assert (Py.find "/abs/" (pre +:+ "/abs/" +:+ tok) = Some (String.length pre))
    as Hf.
  { apply find_first.
    - by rewrite slice_from_length.
    - intros j Hj.
      destruct (Py.startswith _ (Py.slice_from j _)) eqn:Hocc; [|done].
      apply occurs_at_startswith, Hfirst in Hocc; [lia|done]. }
  assert (Py.find "/abs/" tok = None) as Hnone.
  { destruct (Py.find "/abs/" tok) as [i|] eqn:Hi; [|done].
    destruct (Htok i). apply occurs_at_startswith; [done|]. by apply find_Some. }
  change (Py.last_item (Py.split_from (String.length (pre +:+ "/abs/" +:+ tok))
                          "/abs/" (pre +:+ "/abs/" +:+ tok)) = Some tok).
  destruct (String.length (pre +:+ "/abs/" +:+ tok)) as [|fuel] eqn:Hlen.
  { rewrite !length_append in Hlen. simpl in Hlen. lia. }
  rewrite (split_from_cut "/abs/" fuel pre tok Hf).
  by rewrite (split_from_None _ _ _ Hnone).
Qed.

(** What [entry_fields] puts into the 'id' and 'arxiv_url' keys. *)
Lemma entry_fields_id entry paper :
  entry_fields entry = Some paper ->
  exists raw,
    find (atom "id") entry ≫= text = Some raw /\
    arxiv_url paper = raw /\ canonical_id raw = Some (id paper).
Proof.
  unfold entry_fields. intros Hp.
  destruct (find (atom "id") entry) as [id_el|]; [|done]. simpl in Hp |- *.
  repeat match type of Hp with
         | context [?m ≫= _] =>
             match m with
             | context [_ ≫= _] => fail 1
             | _ => destruct m eqn:?; simpl in Hp; [|discriminate]
             end
         | context [_ <$> ?m] => destruct m eqn:?; simpl in Hp; [|discriminate]
         end.
  injection Hp as <-. simpl. eauto.
Qed.

(** C9. The record of a parsed entry keeps the raw id as its landing-page
    URL, and its id is the raw id with the prefix up to "/abs/" cut off: the
    trailing identifier token; for "http://arxiv.org/abs/2101.00001v2" the id
    is "2101.00001v2". *)
Theorem parsed_entry_canonical_id entry paper raw :
  entry_fields entry = Some paper ->
  find (atom "id") entry ≫= text = Some raw ->
  arxiv_url paper = raw /\
  (forall pre tok,
     raw = pre +:+ "/abs/" +:+ tok ->
     (forall j, occurs_at "/abs/" raw j -> (String.length pre <= j)%nat) ->
     (forall i, ~ occurs_at "/abs/" tok i) ->
     id paper = tok) /\
  (raw = "http://arxiv.org/abs/2101.00001v2" -> id paper = "2101.00001v2").
Proof.
  intros Hp Hraw. destruct (entry_fields_id _ _ Hp) as (raw' & Hraw' & Hurl & Hid).
  assert (raw' = raw) as -> by congruence.
  split; [done|]. split.
  - intros pre tok -> Hfirst Htok.
    rewrite (canonical_id_cut pre tok Hfirst Htok) in Hid. congruence.
  - intros ->.
    assert (canonical_id "http://arxiv.org/abs/2101.00001v2" = Some "2101.00001v2")
      as Hex by reflexivity.
    congruence.
Qed.

End CanonicalId.

Lemma parsed_entry_canonical_id_witness :
  exists paper,
    @entry_fields Sample.platform Sample.e1 = Some paper /\
    arxiv_url paper = "http://arxiv.org/abs/2101.00001v2" /\
    id paper = "2101.00001v2".
Proof.
  destruct (@entry_fields Sample.platform Sample.e1) as [paper|] eqn:Hp;
    [|by vm_compute in Hp].
  exists paper. split; [done|].
  destruct (@parsed_entry_canonical_id Sample.platform Sample.e1 paper
              "http://arxiv.org/abs/2101.00001v2" Hp eq_refl) as (Hurl & _ & Hid).
  split; [exact Hurl | exact (Hid eq_refl)].
Defined.

(** C10, as stated, fails where two occurrences of "/abs/" overlap: of
    "http://arxiv.org/abs/abs/" the code keeps "abs/", while the substring
    after the last occurrence of "/abs/" is empty. *)
Lemma canonical_id_overlap_counterexample :
  canonical_id "http://arxiv.org/abs/abs/" = Some "abs/" /\
  after_last_occurrence "/abs/" "http://arxiv.org/abs/abs/" "" /\
  ~ after_last_occurrence "/abs/" "http://arxiv.org/abs/abs/" "abs/".
Proof.
  split; [reflexivity|]. split.
  - exists "http://arxiv.org/abs". split; [reflexivity|].
    intros j Hj. apply occurs_at_startswith in Hj; [|done].
    simpl String.length.
    destruct (decide (j <= 20)%nat) as [|Hgt]; [done|].
    do 21 (destruct j as [|j]; [lia|]).
    do 5 (destruct j as [|j]; [discriminate Hj|]). discriminate Hj.
  - intros (pre & Heq & Hmax).
    assert (String.length pre = 16%nat) as Hlen.
    { apply (f_equal String.length) in Heq. rewrite length_append in Heq.
      simpl in Heq. lia. }
    specialize (Hmax 20%nat). rewrite Hlen in Hmax.
    assert (20 <= 16)%nat; [|lia]. apply Hmax.
    by exists "http://arxiv.org/abs", "".
Qed.

(** C10, amended. Canonical id extraction never fails. It returns what is
    left of the raw id behind the last cut when the raw id is cut at
    "/abs/" from left to right, occurrences that overlap a cut being passed
    over. With no "/abs/" in it the raw id is returned unchanged; where no
    two occurrences overlap (the raw id has no "/abs/abs/"), the result is
    the substring after the last occurrence of "/abs/". *)
Theorem canonical_id_split_last raw :
  exists t,
    canonical_id raw = Some t /\
    last_piece "/abs/" raw t /\
    ((forall i, ~ occurs_at "/abs/" raw i) -> t = raw) /\
    ((exists i, occurs_at "/abs/" raw i) ->
     (forall i, ~ occurs_at "/abs/abs/" raw i) ->
     after_last_occurrence "/abs/" raw t).
Proof.
  destruct (canonical_id_last_piece raw) as (t & Hid & Hpiece).
  exists t. repeat split; [done..| |].
  - by apply last_piece_no_occurrence.
  - by apply last_piece_after_last_occurrence.
Qed.

Lemma canonical_id_split_last_witness :
  canonical_id "http://arxiv.org/abs/2101.00001v2" = Some "2101.00001v2" /\
  after_last_occurrence "/abs/" "http://arxiv.org/abs/2101.00001v2" "2101.00001v2".
Proof.
  destruct (canonical_id_split_last "http://arxiv.org/abs/2101.00001v2")
    as (t & Hid & _ & _ & Hlast).
  vm_compute in Hid. injection Hid as <-. split; [reflexivity|].
  apply Hlast.
  - exists 16%nat. by exists "http://arxiv.org", "2101.00001v2".
  - intros i. rewrite occurs_at_startswith by done.
    by rewrite (find_None "/abs/abs/" "http://arxiv.org/abs/2101.00001v2" i eq_refl).
Defined.

(** ** Running the monad *)

Section Running.

Lemma bind_run {A B} (m : M A) (k : A -> M B) w :
  (m ≫= k) w =
  match m w with
  | (Returned a, w') => k a w'
  | (Raised e, w') => (Raised e, w')
  end.
Proof. reflexivity. Qed.

Lemma bind_ext {A B} (m : M A) (k k' : A -> M B) w :
  (forall a w', k a w' = k' a w') -> (m ≫= k) w = (m ≫= k') w.
Proof. intros Hk. rewrite !bind_run. by destruct (m w) as [[a|e] w']. Qed.

Lemma same_outside_heap_refl w : same_outside_heap w w.
Proof. by repeat split. Qed.

Lemma same_outside_heap_trans w1 w2 w3 :
  same_outside_heap w1 w2 -> same_outside_heap w2 w3 -> same_outside_heap w1 w3.
Proof. unfold same_outside_heap. intuition congruence. Qed.

Lemma alloc_run paper w :
  exists l w',
    alloc paper w = (Returned l, w') /\
    heap w !! l = None /\ heap w' = <[l := paper]> (heap w) /\
    same_outside_heap w w'.
Proof.
  eexists _, _. split; [reflexivity|]. split; [|by repeat split].
  apply (not_elem_of_dom (D := gset loc)), is_fresh.
Qed.

Lemma read_run l paper w :
  heap w !! l = Some paper -> read l w = (Returned paper, w).
Proof. intros Hl. unfold read. by rewrite Hl. Qed.

Lemma modify_run l f paper w :
  heap w !! l = Some paper ->
  exists w',
    modify l f w = (Returned tt, w') /\
    heap w' = <[l := f paper]> (heap w) /\ same_outside_heap w w'.
Proof.
  intros Hl. unfold modify. rewrite Hl. eexists. split; [reflexivity|].
  by repeat split.
Qed.

End Running.

(** ** The feed fetcher *)

Section Fetcher.

Context `{Platform}.

Lemma datetime_ge_aware d c off :
  aware d -> datetime_ge d (Aware c off) = inr (recent_instant c d).
Proof. destruct d; [done|intros []]. Qed.

Lemma papers_at_mono w w' ls ps :
  heap w ⊆ heap w' -> papers_at w ls = Some <$> ps -> papers_at w' ls = Some <$> ps.
Proof.
  intros Hsub. unfold papers_at. revert ps.
  induction ls as [|l ls IH]; intros [|p ps]; simpl; try done.
  intros [= Hl Hls]. f_equal; [|by apply IH].
  by apply (lookup_weaken _ _ _ _ Hl Hsub).
Qed.

(** The loop returns when every parsed date is aware: it has kept, in feed
    order, the parsed entries that are recent, as new dictionaries. *)
Lemma fetch_papers_loop_returns self c off entries :
  cutoff_date self = Aware c off ->
  Forall (fun e => forall p, entry_fields e = Some p -> aware (published p)) entries ->
  forall papers w, exists ls w',
    fetch_papers_loop self entries papers w = (Returned (papers ++ ls), w') /\
    same_outside_heap w w' /\ heap w ⊆ heap w' /\
    papers_at w' ls = Some <$> filter (fun p => recent c p) (omap entry_fields entries) /\
    Forall (fun l => heap w !! l = None) ls.
Proof.
  intros Hcut. induction 1 as [|e entries He _ IH]; intros papers w.
  - exists [], w. rewrite app_nil_r. repeat split; done.
  - cbn [fetch_papers_loop]. rewrite bind_run. unfold _parse_entry.
    simpl omap. destruct (entry_fields e) as [p|] eqn:Hp.
    + rewrite bind_run.
      destruct (alloc_run p w) as (l & w1 & -> & Hfresh & Hheap & Hsame).
      cbn [mret M_ret ret]. rewrite bind_run.
      assert (heap w1 !! l = Some p) as Hl
        by (rewrite Hheap; apply lookup_insert_eq).
      rewrite (read_run l p w1 Hl), Hcut.
      rewrite (datetime_ge_aware _ _ _ (He p eq_refl)).
      assert (heap w ⊆ heap w1) as Hsub
        by (rewrite Hheap; by apply insert_subseteq).
      fold (recent c p). rewrite filter_cons.
      destruct (recent c p) eqn:Hrecent.
      * destruct (IH (papers ++ [l]) w1) as (ls & w' & -> & Hsame' & Hsub' & Hat & Hnew).
        exists (l :: ls), w'. rewrite <- app_assoc. split; [done|].
        split; [by eapply same_outside_heap_trans|].
        split; [by etrans|]. split.
        -- rewrite decide_True by done. cbn [papers_at fmap list_fmap].
           f_equal; [|exact Hat]. by apply (lookup_weaken _ _ _ _ Hl Hsub').
        -- constructor; [done|]. eapply Forall_impl; [exact Hnew|].
           intros l' Hl'. simpl in Hl'. by eapply lookup_weaken_None.
      * destruct (IH papers w1) as (ls & w' & -> & Hsame' & Hsub' & Hat & Hnew).
        exists ls, w'. split; [done|].
        split; [by eapply same_outside_heap_trans|].
        split; [by etrans|]. split.
        -- rewrite decide_False; [exact Hat | by intros []].
        -- eapply Forall_impl; [exact Hnew|].
           intros l' Hl'. simpl in Hl'. by eapply lookup_weaken_None.
    + cbn [mret M_ret ret]. apply IH.
Qed.

(** An entry that does not parse leaves no trace in the loop. *)
Lemma fetch_papers_loop_skip self before bad after :
  entry_fields bad = None ->
  forall papers w,
    fetch_papers_loop self (before ++ bad :: after) papers w
    = fetch_papers_loop self (before ++ after) papers w.
Proof.
  intros Hbad. induction before as [|e before IH]; intros papers w; simpl app.
  - cbn [fetch_papers_loop]. rewrite bind_run. unfold _parse_entry.
    by rewrite Hbad.
  - cbn [fetch_papers_loop]. apply bind_ext. intros [l|] w'; [|apply IH].
    apply bind_ext. intros d w''.
    destruct (datetime_ge _ _) as [e'|[|]]; [done | apply IH..].
Qed.

Lemma fetch_papers_returns self keyword_groups w data root c off :
  feed_reply (http_log w) (request_url self keyword_groups) = HttpBody data ->
  ET_fromstring data = Some root ->
  cutoff_date self = Aware c off ->
  Forall (fun e => forall p, entry_fields e = Some p -> aware (published p))
         (findall (atom "entry") root) ->
  exists ls w',
    fetch_papers self keyword_groups w = (Returned ls, w') /\
    http_log w' = http_log w ++ [request_url self keyword_groups] /\
    clock w' = clock w /\ environ w' = environ w /\ chat_log w' = chat_log w /\
    heap w ⊆ heap w' /\
    papers_at w' ls
    = Some <$> filter (fun p => recent c p)
                      (omap entry_fields (findall (atom "entry") root)).
Proof.
  intros Hreply Hxml Hcut Haware. unfold fetch_papers. rewrite bind_run.
  unfold urlopen_read. rewrite Hreply, Hxml.
  match goal with
  | |- context [fetch_papers_loop self ?es [] ?w1] =>
      destruct (fetch_papers_loop_returns self c off es Hcut Haware [] w1)
        as (ls & w' & Hrun & (Hclock & Henv & Hhttp & Hchat) & Hsub & Hat & _)
  end.
  exists ls, w'. split; [exact Hrun|]. by repeat split.
Qed.

(** C2. A parsed entry is in the result of [fetch_papers] exactly when its
    published timestamp is at or after the cutoff instant: one published
    at the cutoff is kept, one published before it is not. The result is
    the list of these entries in feed order. *)
Theorem fetch_papers_date_filter self keyword_groups w data root c off :
  feed_reply (http_log w) (request_url self keyword_groups) = HttpBody data ->
  ET_fromstring data = Some root ->
  cutoff_date self = Aware c off ->
  Forall (fun e => forall p, entry_fields e = Some p -> aware (published p))
         (findall (atom "entry") root) ->
  exists ls w',
    fetch_papers self keyword_groups w = (Returned ls, w') /\
    papers_at w' ls
    = Some <$> filter (fun p => recent c p)
                      (omap entry_fields (findall (atom "entry") root)) /\
    forall e p instant offset,
      e ∈ findall (atom "entry") root ->
      entry_fields e = Some p ->
      published p = Aware instant offset ->
      (Some p ∈ papers_at w' ls <-> c <= instant).
Proof.
  intros Hreply Hxml Hcut Haware.
  destruct (fetch_papers_returns _ _ _ _ _ _ _ Hreply Hxml Hcut Haware)
    as (ls & w' & Hrun & _ & _ & _ & _ & _ & Hat).
  exists ls, w'. split; [done|]. split; [done|].
  intros e p instant offset He Hp Hpub. rewrite Hat.
  rewrite list_elem_of_fmap. split.
  - intros (p' & [= <-] & Hin). apply list_elem_of_filter in Hin as [Hrec _].
    unfold recent in Hrec. rewrite Hpub in Hrec. simpl in Hrec.
    by apply Is_true_true, Z.leb_le in Hrec.
  - intros Hle. exists p. split; [done|]. apply list_elem_of_filter. split.
    + unfold recent. rewrite Hpub. simpl. by apply Is_true_true, Z.leb_le.
    + apply list_elem_of_omap. eauto.
Qed.

(** C4. An entry whose parsing fails is dropped and the others are still
    processed: the loop goes on as if the entry were not in the feed. When
    the others pass the date filter, [fetch_papers] returns exactly their
    records, in feed order, and does not raise; of five entries with one
    malformed, four are returned. *)
Theorem fetch_papers_skips_malformed self keyword_groups w data root c off
    before bad after :
  feed_reply (http_log w) (request_url self keyword_groups) = HttpBody data ->
  ET_fromstring data = Some root ->
  cutoff_date self = Aware c off ->
  findall (atom "entry") root = before ++ bad :: after ->
  entry_fields bad = None ->
  Forall (fun e => exists p, entry_fields e = Some p /\ recent c p = true)
         (before ++ after) ->
  (forall papers w0,
     fetch_papers_loop self (before ++ bad :: after) papers w0
     = fetch_papers_loop self (before ++ after) papers w0) /\
  exists ls w',
    fetch_papers self keyword_groups w = (Returned ls, w') /\
    Forall2 (fun l e => exists p, heap w' !! l = Some p /\ entry_fields e = Some p)
            ls (before ++ after) /\
    (length (before ++ bad :: after) = 5%nat -> length ls = 4%nat).
Proof.
  intros Hreply Hxml Hcut Hentries Hbad Hgood.
  split; [by apply fetch_papers_loop_skip|].
  assert (Forall (fun e => forall p, entry_fields e = Some p -> aware (published p))
                 (findall (atom "entry") root)) as Haware.
  { rewrite Hentries. apply Forall_app. apply Forall_app in Hgood as [Hb Ha].
    split; [|constructor; [by rewrite Hbad|]];
      (eapply Forall_impl; [eassumption|]);
      intros e (p & Hp & Hrec) p' Hp'; assert (p' = p) as -> by congruence;
      unfold recent in Hrec; by destruct (published p). }
  destruct (fetch_papers_returns _ _ _ _ _ _ _ Hreply Hxml Hcut Haware)
    as (ls & w' & Hrun & _ & _ & _ & _ & _ & Hat).
  exists ls, w'. split; [done|].
  assert (filter (fun p => recent c p)
                 (omap entry_fields (findall (atom "entry") root))
          = omap entry_fields (before ++ after)) as Hkept.
  { rewrite Hentries, omap_app. simpl. rewrite Hbad, <- omap_app.
    revert Hgood. generalize (before ++ after). clear. intros es Hgood.
    induction Hgood as [|e es (p & Hp & Hrec) _ IH]; [done|].
    simpl. rewrite Hp. rewrite filter_cons, decide_True by (by rewrite Hrec).
    f_equal. exact IH. }
  rewrite Hkept in Hat.
  assert (Forall2 (fun l e => exists p, heap w' !! l = Some p /\ entry_fields e = Some p)
                  ls (before ++ after)) as Hall.
  { revert Hat Hgood. generalize (before ++ after). clear.
    intros es Hat Hgood. revert ls Hat.
    induction Hgood as [|e es (p & Hp & _) _ IH]; intros [|l ls]; simpl;
      try rewrite Hp; try done.
    intros [= Hl Hls]. constructor; eauto. }
  split; [done|]. intros Hfive.
  rewrite (Forall2_length _ _ _ Hall).
  rewrite length_app in Hfive |- *. simpl in Hfive. lia.
Qed.

(** C5. When the request of [fetch_papers] fails with a transport error,
    [fetch_papers] returns the empty list: it does not raise, and that
    request is the only one it has made. *)
Theorem fetch_papers_transport_error self keyword_groups w e :
  feed_reply (http_log w) (request_url self keyword_groups) = HttpFails e ->
  exists w',
    fetch_papers self keyword_groups w = (Returned [], w') /\
    http_log w' = http_log w ++ [request_url self keyword_groups] /\
    heap w' = heap w /\ chat_log w' = chat_log w.
Proof.
  intros Hreply. unfold fetch_papers. rewrite bind_run.
  unfold urlopen_read. rewrite Hreply. eexists. split; [reflexivity|]. done.
Qed.

(** *** The cutoff and the clock *)

Lemma clock_free_ret {A} (a : A) : clock_free (mret a).
Proof. by intros now w. Qed.

Lemma clock_free_raise {A} e : clock_free (@raise A e).
Proof. by intros now w. Qed.

Lemma clock_free_bind {A B} (m : M A) (k : A -> M B) :
  clock_free m -> (forall a, clock_free (k a)) -> clock_free (m ≫= k).
Proof.
  intros Hm Hk now w. rewrite !bind_run, Hm.
  destruct (m w) as [[a|e] w']; [apply Hk | done].
Qed.

Lemma clock_free_alloc paper : clock_free (alloc paper).
Proof. by intros now w. Qed.

Lemma clock_free_read l : clock_free (read l).
Proof. intros now w. unfold read. simpl. by destruct (heap w !! l). Qed.

Lemma clock_free_urlopen_read url : clock_free (urlopen_read url).
Proof. by intros now w. Qed.

Lemma clock_free_fetch_papers_loop self entries papers :
  clock_free (fetch_papers_loop self entries papers).
Proof.
  revert papers. induction entries as [|e entries IH]; intros papers.
  - apply clock_free_ret.
  - cbn [fetch_papers_loop]. apply clock_free_bind.
    + unfold _parse_entry. destruct (entry_fields e).
      * apply clock_free_bind; [apply clock_free_alloc|].
        intros l. apply clock_free_ret.
      * apply clock_free_ret.
    + intros [l|]; [|apply IH].
      apply clock_free_bind; [apply clock_free_read|]. intros d.
      destruct (datetime_ge _ _) as [e'|[|]];
        [apply clock_free_raise | apply IH..].
Qed.

Lemma clock_free_fetch_papers self keyword_groups :
  clock_free (fetch_papers self keyword_groups).
Proof.
  unfold fetch_papers. apply clock_free_bind; [apply clock_free_urlopen_read|].
  intros [data|e]; [|apply clock_free_ret].
  destruct (ET_fromstring data);
    [apply clock_free_fetch_papers_loop | apply clock_free_raise].
Qed.

(** *** The constructor *)

Lemma ArxivFetcher_init_returns cats hours cap w :
  window_in_range (clock w) hours ->
  ArxivFetcher__init__ cats hours cap w
  = (Returned {| categories := cats; time_window_hours := hours;
                 max_results := cap;
                 cutoff_date := Aware (clock w - timedelta_hours hours) 0 |}, w).
Proof.
  intros [Hdays [Hmin Hmax]]. unfold ArxivFetcher__init__. rewrite bind_run.
  cbn [datetime_now_utc]. unfold timedelta_of_hours, datetime_minus.
  cbn [wall datetime_sub]. rewrite Z.add_0_r.
  destruct (Z.leb_spec (Z.abs (hours / 24)) 999999999); [|lia].
  destruct (Z.leb_spec DATETIME_MIN (clock w - timedelta_hours hours)); [|lia].
  destruct (Z.leb_spec (clock w - timedelta_hours hours) DATETIME_MAX); [|lia].
  reflexivity.
Qed.

Lemma ArxivFetcher_init_raises cats hours cap w :
  ~ window_in_range (clock w) hours ->
  ArxivFetcher__init__ cats hours cap w = (Raised OverflowError, w).
Proof.
  intros Hout. unfold ArxivFetcher__init__. rewrite bind_run.
  cbn [datetime_now_utc]. unfold timedelta_of_hours, datetime_minus.
  cbn [wall datetime_sub]. rewrite Z.add_0_r.
  destruct (Z.leb_spec (Z.abs (hours / 24)) 999999999); [|done].
  destruct (Z.leb_spec DATETIME_MIN (clock w - timedelta_hours hours)); [|done].
  destruct (Z.leb_spec (clock w - timedelta_hours hours) DATETIME_MAX); [|done].
  destruct Hout. by repeat split.
Qed.

Lemma window_in_range_dec now hours :
  window_in_range now hours \/ ~ window_in_range now hours.
Proof. unfold window_in_range. lia. Qed.

Lemma ArxivFetcher_init_returned cats hours cap w self w' :
  ArxivFetcher__init__ cats hours cap w = (Returned self, w') ->
  w' = w /\ window_in_range (clock w) hours /\
  self = {| categories := cats; time_window_hours := hours; max_results := cap;
            cutoff_date := Aware (clock w - timedelta_hours hours) 0 |}.
Proof.
  intros Hinit. destruct (window_in_range_dec (clock w) hours) as [Hin|Hout].
  - rewrite (ArxivFetcher_init_returns _ _ _ _ Hin) in Hinit.
    by injection Hinit as <- <-.
  - by rewrite (ArxivFetcher_init_raises _ _ _ _ Hout) in Hinit.
Qed.

(** C3, amended. The constructor returns exactly when the window is within
    the range of [timedelta] and leads to a cutoff within the range of
    [datetime] (it raises [OverflowError] otherwise); the cutoff of the fetcher it
    returns is the UTC time at its construction minus the window. A fetch
    call does not look at the clock: made at another time on the same
    fetcher, and given the same answer of the feed, it does the same;
    whenever it is made, its date filter keeps the entries published at or
    after that one cutoff. *)
Theorem fetcher_cutoff_from_construction cats hours cap w0 :
  (window_in_range (clock w0) hours <->
   exists self, ArxivFetcher__init__ cats hours cap w0 = (Returned self, w0)) /\
  forall self w1,
    ArxivFetcher__init__ cats hours cap w0 = (Returned self, w1) ->
    w1 = w0 /\
    cutoff_date self = Aware (clock w0 - timedelta_hours hours) 0 /\
    (forall keyword_groups now w,
       fetch_papers self keyword_groups (at_time now w)
       = let '(r, w') := fetch_papers self keyword_groups w in (r, at_time now w')) /\
    (forall keyword_groups w data root,
       feed_reply (http_log w) (request_url self keyword_groups) = HttpBody data ->
       ET_fromstring data = Some root ->
       Forall (fun e => forall p, entry_fields e = Some p -> aware (published p))
              (findall (atom "entry") root) ->
       exists ls w',
         fetch_papers self keyword_groups w = (Returned ls, w') /\
         papers_at w' ls
         = Some <$> filter (fun p => recent (clock w0 - timedelta_hours hours) p)
                           (omap entry_fields (findall (atom "entry") root))).
Proof.
  split.
  - split.
    + intros Hin. eexists. by apply ArxivFetcher_init_returns.
    + intros [self Hinit]. by apply ArxivFetcher_init_returned in Hinit as (_ & ? & _).
  - intros self w1 Hinit.
    apply ArxivFetcher_init_returned in Hinit as (-> & _ & ->).
    split; [done|]. split; [done|]. split.
    + intros keyword_groups. apply clock_free_fetch_papers.
    + intros keyword_groups w data root Hreply Hxml Haware.
      edestruct fetch_papers_returns
        as (ls & w' & Hrun & _ & _ & _ & _ & _ & Hat); [done..|].
      by exists ls, w'.
Qed.

End Fetcher.

Section FetcherInstances.

Import Sample.

Lemma sample_entries_aware root :
  root = feed3 \/ root = feed5 ->
  Forall (fun e => forall p, @entry_fields platform e = Some p -> aware (published p))
         (findall (atom "entry") root).
Proof.
  intros [-> | ->].
  - change (findall (atom "entry") feed3) with [e1; e2; e_old].
    repeat constructor; intros p Hp; vm_compute in Hp; by injection Hp as <-.
  - change (findall (atom "entry") feed5) with [e1; e2; entry_without_title; e4; e5].
    repeat constructor; intros p Hp; vm_compute in Hp;
      first [discriminate Hp | by injection Hp as <-].
Qed.

Lemma fetch_papers_date_filter_witness :
  exists ls w',
    @fetch_papers (platform_of feed3 (HttpBody "<feed>")) fetcher [["simulation"]]
                  (world (T0 + 24 * hour) ∅) = (Returned ls, w') /\
    papers_at w' ls
    = Some <$> filter (fun p => recent T0 p)
                      (omap (@entry_fields platform) [e1; e2; e_old]) /\
    forall e p instant offset,
      e ∈ [e1; e2; e_old] ->
      @entry_fields platform e = Some p ->
      published p = Aware instant offset ->
      (Some p ∈ papers_at w' ls <-> T0 <= instant).
Proof.
  apply (@fetch_papers_date_filter (platform_of feed3 (HttpBody "<feed>"))
           fetcher [["simulation"]] (world (T0 + 24 * hour) ∅) "<feed>" feed3 T0 0);
    [reflexivity..|].
  apply sample_entries_aware. by left.
Defined.

Lemma fetch_papers_skips_malformed_witness :
  @entry_fields platform entry_without_title = None /\
  exists ls w',
    @fetch_papers platform fetcher [["simulation"]] (world (T0 + 24 * hour) ∅)
    = (Returned ls, w') /\
    Forall2 (fun l e => exists p, heap w' !! l = Some p /\
                                  @entry_fields platform e = Some p)
            ls ([e1; e2] ++ [e4; e5]) /\
    (length ([e1; e2] ++ entry_without_title :: [e4; e5]) = 5%nat ->
     length ls = 4%nat).
Proof.
  split; [vm_compute; reflexivity|].
  apply (@fetch_papers_skips_malformed platform fetcher [["simulation"]]
           (world (T0 + 24 * hour) ∅) "<feed>" feed5 T0 0
           [e1; e2] entry_without_title [e4; e5]);
    [reflexivity..|].
  repeat constructor; eexists; (split; [vm_compute; reflexivity|reflexivity]).
Defined.

Lemma fetch_papers_transport_error_witness :
  exists w',
    @fetch_papers platform_offline fetcher [["simulation"]] (world T0 ∅)
    = (Returned [], w') /\
    http_log w' = [@request_url platform_offline fetcher [["simulation"]]] /\
    heap w' = ∅ /\ chat_log w' = [].
Proof.
  apply (@fetch_papers_transport_error platform_offline fetcher [["simulation"]]
           (world T0 ∅) (URLError "Name or service not known")).
  reflexivity.
Defined.

(** The dates have to be aware: a published date without UTC offset parses,
    and its comparison with the cutoff raises [TypeError] outside any
    [try] block. *)
Example fetch_papers_naive_date_raises :
  fst (@fetch_papers (platform_of feed_naive (HttpBody "<feed>")) fetcher
         [["simulation"]] (world (T0 + 24 * hour) ∅))
  = Raised TypeError.
Proof. vm_compute. reflexivity. Qed.

(** C3, as stated, fails: a fetcher made at 2025-01-02T00:00Z with a window
    of 24 hours and asked to fetch two hours later still keeps the entries
    published at 2025-01-01T00:00Z and 01:00Z, none of which is at or after
    the time of the call minus 24 hours. *)
Lemma fetch_cutoff_counterexample :
  exists self ls w',
    ArxivFetcher__init__ ["cond-mat.mtrl-sci"] 24 50 (world (T0 + 24 * hour) ∅)
    = (Returned self, world (T0 + 24 * hour) ∅) /\
    @fetch_papers (platform_of feed3 (HttpBody "<feed>")) self [["simulation"]]
                  (world (T0 + 26 * hour) ∅) = (Returned ls, w') /\
    length ls = 2%nat /\
    filter (fun p => recent (T0 + 26 * hour - timedelta_hours 24) p)
           (omap (@entry_fields platform) (findall (atom "entry") feed3)) = [].
Proof.
  eexists _, _, _. split; [reflexivity|]. split; [vm_compute; reflexivity|].
  split; reflexivity.
Qed.

Lemma fetcher_cutoff_from_construction_witness :
  exists self,
    ArxivFetcher__init__ ["cond-mat.mtrl-sci"] 24 50 (world (T0 + 24 * hour) ∅)
    = (Returned self, world (T0 + 24 * hour) ∅) /\
    cutoff_date self = Aware T0 0 /\
    exists ls w',
      @fetch_papers (platform_of feed3 (HttpBody "<feed>")) self [["simulation"]]
                    (world (T0 + 26 * hour) ∅) = (Returned ls, w') /\
      papers_at w' ls
      = Some <$> filter (fun p => recent T0 p)
                        (omap (@entry_fields platform) [e1; e2; e_old]).
Proof.
  destruct (@fetcher_cutoff_from_construction (platform_of feed3 (HttpBody "<feed>"))
              ["cond-mat.mtrl-sci"] 24 50 (world (T0 + 24 * hour) ∅))
    as [Hrange Hafter].
  destruct (proj1 Hrange) as [self Hinit].
  { unfold window_in_range. vm_compute. repeat split; discriminate. }
  destruct (Hafter self _ Hinit) as (_ & Hcut & _ & Hfetch).
  exists self. split; [exact Hinit|]. split; [exact Hcut|].
  apply (Hfetch [["simulation"]] (world (T0 + 26 * hour) ∅) "<feed>" feed3).
  - vm_compute in Hinit. injection Hinit as <-. reflexivity.
  - reflexivity.
  - apply sample_entries_aware. by left.
Defined.

End FetcherInstances.

(** ** The summarization stage *)

Section Summarizer.

Context `{Platform}.

Lemma summarize_paper_run self l p prompt w :
  heap w !! l = Some p -> _build_prompt p = Some prompt ->
  summarize_paper self l w
  = (Returned (response_summary (chat_reply (chat_log w) (chat_request self prompt))),
     {| clock := clock w; environ := environ w; heap := heap w;
        http_log := http_log w;
        chat_log := chat_log w ++ [chat_request self prompt] |}).
Proof.
  intros Hl Hprompt. unfold summarize_paper. rewrite bind_run.
  rewrite (read_run l p w Hl), Hprompt. reflexivity.
Qed.

Lemma copy_run l p w :
  heap w !! l = Some p ->
  exists l' w',
    copy l w = (Returned l', w') /\
    heap w !! l' = None /\ heap w' = <[l' := p]> (heap w) /\
    same_outside_heap w w'.
Proof.
  intros Hl. unfold copy. rewrite bind_run, (read_run l p w Hl).
  apply alloc_run.
Qed.

Lemma requests_cons self p prompt ps :
  _build_prompt p = Some prompt ->
  requests self (p :: ps) = chat_request self prompt :: requests self ps.
Proof. intros Hp. unfold requests. simpl. by rewrite Hp. Qed.

(** The loop returns when every prompt can be built: one request and one new
    dictionary per paper, in order; the dictionaries that existed are as
    they were. *)
Lemma summarize_papers_loop_returns self papers :
  forall ps summarized w,
    papers_at w papers = Some <$> ps ->
    Forall (fun p => is_Some (_build_prompt p)) ps ->
    exists out w',
      summarize_papers_loop self papers summarized w
      = (Returned (summarized ++ out), w') /\
      clock w' = clock w /\ environ w' = environ w /\
      http_log w' = http_log w /\
      chat_log w' = chat_log w ++ requests self ps /\
      heap w ⊆ heap w' /\
      Forall (fun l => heap w !! l = None) out /\
      NoDup out /\
      papers_at w' out = Some <$> summarized_records self (chat_log w) ps.
Proof.
  induction papers as [|l papers IH]; intros [|p ps] summarized w Hat Hprompts;
    try discriminate Hat.
  - exists [], w. rewrite !app_nil_r. repeat split; try done. constructor.
  - injection Hat as Hl Hat. apply Forall_cons in Hprompts as [[prompt Hp] Hprompts].
    cbn [summarize_papers_loop]. rewrite bind_run.
    rewrite (summarize_paper_run self l p prompt w Hl Hp).
    set (req := chat_request self prompt).
    set (s := summary_or_sentinel (response_summary (chat_reply (chat_log w) req))).
    set (w1 := {| clock := clock w; environ := environ w; heap := heap w;
                  http_log := http_log w; chat_log := chat_log w ++ [req] |}).
    rewrite bind_run.
    destruct (copy_run l p w1 Hl) as (l' & w2 & -> & Hfresh & Hheap2 & Hsame2).
    rewrite bind_run.
    destruct (modify_run l' (set_summary s) p w2) as (w3 & -> & Hheap3 & Hsame3).
    { rewrite Hheap2. apply lookup_insert_eq. }
    rewrite Hheap2, insert_insert_eq in Hheap3. simpl in Hfresh, Hheap3.
    assert (heap w ⊆ heap w3) as Hsub
      by (rewrite Hheap3; by apply insert_subseteq).
    destruct Hsame2 as (Hc2 & He2 & Hh2 & Hl2).
    destruct Hsame3 as (Hc3 & He3 & Hh3 & Hl3). simpl in Hc2, He2, Hh2, Hl2.
    destruct (IH ps (summarized ++ [l']) w3)
      as (out & w' & -> & Hc & He & Hh & Hlog & Hsub' & Hnew & Hnodup & Hout).
    { by apply (papers_at_mono w). }
    { done. }
    exists (l' :: out), w'. rewrite <- app_assoc. split; [done|].
    split; [congruence|]. split; [congruence|]. split; [congruence|].
    assert (heap w3 !! l' = Some (set_summary s p)) as Hl'
      by (rewrite Hheap3; apply lookup_insert_eq).
    split.
    { rewrite Hlog, Hl3, Hl2, (requests_cons self p prompt ps Hp).
      by rewrite <- app_assoc. }
    split; [by etrans|]. split.
    { constructor; [done|]. eapply Forall_impl; [exact Hnew|].
      intros l'' Hl''. simpl in Hl''. by eapply lookup_weaken_None. }
    split.
    { constructor; [|done]. intros Hin.
      rewrite Forall_forall in Hnew. specialize (Hnew _ Hin). congruence. }
    change (papers_at w' (l' :: out)) with (heap w' !! l' :: papers_at w' out).
    cbn [summarized_records]. rewrite Hp, fmap_cons. f_equal.
    + by apply (lookup_weaken _ _ _ _ Hl' Hsub').
    + rewrite Hout. by rewrite Hl3, Hl2.
Qed.

Lemma summary_or_sentinel_answer answer :
  summary_or_sentinel (response_summary answer)
  = default "Summary unavailable" (answer_text answer).
Proof.
  destruct answer as [|[|[content|] choices]]; try done.
  simpl. destruct (Py.strip content); by case_decide.
Qed.

Lemma summarized_records_lookup self ps :
  Forall (fun p => is_Some (_build_prompt p)) ps ->
  forall log i p,
    ps !! i = Some p ->
    exists req,
      requests self ps !! i = Some req /\
      chat_request self <$> _build_prompt p = Some req /\
      summarized_records self log ps !! i
      = Some (set_summary
                (default "Summary unavailable"
                   (answer_text (chat_reply (log ++ take i (requests self ps)) req)))
                p).
Proof.
  induction 1 as [|q ps [prompt Hq] _ IH]; intros log i p Hi; [done|].
  rewrite (requests_cons self q prompt ps Hq). cbn [summarized_records].
  rewrite Hq. destruct i as [|i].
  - injection Hi as <-. exists (chat_request self prompt).
    rewrite Hq, app_nil_r, summary_or_sentinel_answer. done.
  - destruct (IH (log ++ [chat_request self prompt]) i p Hi)
      as (req & Hreq & Hprompt & Hrec).
    exists req. split; [done|]. split; [done|].
    simpl. rewrite Hrec. by rewrite <- app_assoc.
Qed.

Lemma length_summarized_records self log ps :
  Forall (fun p => is_Some (_build_prompt p)) ps ->
  length (summarized_records self log ps) = length ps.
Proof.
  intros Hprompts. revert log.
  induction Hprompts as [|p ps [prompt Hp] _ IH]; intros log; [done|].
  cbn [summarized_records]. rewrite Hp. simpl. by rewrite IH.
Qed.

Lemma length_requests self ps :
  Forall (fun p => is_Some (_build_prompt p)) ps ->
  length (requests self ps) = length ps.
Proof.
  induction 1 as [|p ps [prompt Hp] _ IH]; [done|].
  rewrite (requests_cons self p prompt ps Hp). simpl. by rewrite IH.
Qed.

(** C7. When the call of the service fails for a paper (it raises, or its
    answer carries no text), [summarize_papers] gives that paper the summary
    "Summary unavailable" and goes on: the result has one record per paper,
    in order, and every paper whose call answered carries the answer's
    text. *)
Theorem summarize_papers_item_fallback self papers ps w :
  papers_at w papers = Some <$> ps ->
  Forall (fun p => is_Some (_build_prompt p)) ps ->
  exists out w' reqs,
    summarize_papers self papers w = (Returned out, w') /\
    length out = length papers /\
    chat_log w' = chat_log w ++ reqs /\
    length reqs = length papers /\
    forall i p,
      ps !! i = Some p ->
      exists req,
        reqs !! i = Some req /\
        chat_request self <$> _build_prompt p = Some req /\
        papers_at w' out !! i
        = Some (Some (set_summary
                        (default "Summary unavailable"
                           (answer_text (chat_reply (chat_log w ++ take i reqs) req)))
                        p)).
Proof.
  intros Hat Hprompts. unfold summarize_papers.
  destruct (summarize_papers_loop_returns self papers ps [] w Hat Hprompts)
    as (out & w' & Hrun & _ & _ & _ & Hlog & _ & _ & _ & Hout).
  exists out, w', (requests self ps). split; [done|].
  assert (length papers = length ps) as Hlen.
  { apply (f_equal length) in Hat. unfold papers_at in Hat.
    by rewrite !length_fmap in Hat. }
  split.
  { apply (f_equal length) in Hout. unfold papers_at in Hout.
    rewrite !length_fmap in Hout.
    by rewrite Hout, Hlen, length_summarized_records. }
  split; [done|]. split; [by rewrite Hlen, length_requests|].
  intros i p Hi.
  destruct (summarized_records_lookup self ps Hprompts (chat_log w) i p Hi)
    as (req & Hreq & Hprompt & Hrec).
  exists req. split; [done|]. split; [done|].
  by rewrite Hout, list_lookup_fmap, Hrec.
Qed.

Lemma agree_except_summary_set s p : agree_except_summary p (set_summary s p).
Proof. by repeat split. Qed.

Lemma summarized_records_agree self log ps :
  Forall (fun p => is_Some (_build_prompt p)) ps ->
  Forall2 (fun p q => agree_except_summary p q /\ is_Some (summary q))
          ps (summarized_records self log ps).
Proof.
  intros Hprompts. revert log.
  induction Hprompts as [|p ps [prompt Hp] _ IH]; intros log; [constructor|].
  cbn [summarized_records]. rewrite Hp. constructor; [|apply IH].
  split; [apply agree_except_summary_set | by eexists].
Qed.

(** *** Without a credential *)

Lemma add_placeholders_run papers :
  forall w,
    Forall (fun l => is_Some (heap w !! l)) papers ->
    exists w',
      add_placeholders papers w = (Returned tt, w') /\
      same_outside_heap w w' /\
      forall l,
        heap w' !! l
        = if decide (l ∈ papers) then set_summary NO_KEY_SUMMARY <$> heap w !! l
          else heap w !! l.
Proof.
  induction papers as [|l papers IH]; intros w Hall.
  - exists w. split; [done|]. split; [apply same_outside_heap_refl|].
    intros l. by rewrite decide_False by apply not_elem_of_nil.
  - apply Forall_cons in Hall as [[p Hl] Hall].
    cbn [add_placeholders]. rewrite bind_run.
    destruct (modify_run l (set_summary NO_KEY_SUMMARY) p w Hl)
      as (w1 & -> & Hheap1 & Hsame1).
    destruct (IH w1) as (w' & -> & Hsame & Hheap).
    { eapply Forall_impl; [exact Hall|]. intros l' [p' Hl']. simpl.
      rewrite Hheap1. destruct (decide (l = l')) as [->|Hne].
      - rewrite lookup_insert_eq. by eexists.
      - rewrite lookup_insert_ne by done. by eexists. }
    exists w'. split; [done|]. split; [by eapply same_outside_heap_trans|].
    intros l'. rewrite Hheap, Hheap1. destruct (decide (l' = l)) as [->|Hne].
    + rewrite lookup_insert_eq, Hl, (decide_True (P := l ∈ l :: papers))
        by apply list_elem_of_here.
      by case_decide.
    + rewrite lookup_insert_ne by done.
      destruct (decide (l' ∈ papers)) as [Hin|Hnin].
      * by rewrite decide_True by (by apply list_elem_of_further).
      * rewrite decide_False; [done|]. by intros [?|?]%elem_of_cons.
Qed.

Lemma papers_at_placeholders w w' papers ps :
  papers_at w papers = Some <$> ps ->
  (forall l, l ∈ papers ->
             heap w' !! l = set_summary NO_KEY_SUMMARY <$> heap w !! l) ->
  papers_at w' papers = Some <$> (set_summary NO_KEY_SUMMARY <$> ps).
Proof.
  revert ps. induction papers as [|l papers IH]; intros [|p ps] Hat Hset;
    try discriminate Hat; [done|].
  injection Hat as Hl Hat.
  change (papers_at w' (l :: papers)) with (heap w' !! l :: papers_at w' papers).
  rewrite !fmap_cons. f_equal.
  - rewrite Hset, Hl by apply list_elem_of_here. done.
  - apply IH; [done|]. intros l' Hl'. apply Hset. by apply list_elem_of_further.
Qed.

Lemma summarize_stage_no_key config papers ps w :
  environ w !! "OPENAI_API_KEY" = None ->
  papers_at w papers = Some <$> ps ->
  exists w',
    summarize_stage config papers w = (Returned papers, w') /\
    same_outside_heap w w' /\
    (forall l, l ∉ papers -> heap w' !! l = heap w !! l) /\
    papers_at w' papers = Some <$> (set_summary NO_KEY_SUMMARY <$> ps).
Proof.
  intros Hkey Hat. unfold summarize_stage. rewrite bind_run.
  unfold try, PaperSummarizer__init__. rewrite bind_run.
  unfold getenv. rewrite Hkey. cbn [raise]. rewrite bind_run.
  destruct (add_placeholders_run papers w) as (w' & Hrun & Hsame & Hheap).
  { apply Forall_forall. intros l Hl.
    apply list_elem_of_lookup in Hl as [i Hi].
    apply (f_equal (fun x => x !! i)) in Hat. unfold papers_at in Hat.
    rewrite !list_lookup_fmap, Hi in Hat. simpl in Hat.
    destruct (ps !! i); [|done]. injection Hat as ->. by eexists. }
  rewrite Hrun.
  exists w'. split; [done|]. split; [done|]. split.
  - intros l Hl. by rewrite Hheap, decide_False.
  - apply (papers_at_placeholders w); [done|].
    intros l Hl. by rewrite Hheap, decide_True.
Qed.

(** C6. Without the credential in the environment the constructor of the
    summarizer raises; [run_digest] catches that and gives every paper of
    the batch the summary "AI summary unavailable (no API key)", and no
    request is sent to the service. The result has as many records as the
    batch: three for three papers. *)
Theorem no_credential_placeholders config papers ps w :
  environ w !! "OPENAI_API_KEY" = None ->
  papers_at w papers = Some <$> ps ->
  PaperSummarizer__init__ (openai_model config) (openai_max_tokens config)
    (openai_temperature config) w = (Raised ValueError, w) /\
  exists w',
    summarize_stage config papers w = (Returned papers, w') /\
    chat_log w' = chat_log w /\
    papers_at w' papers
    = Some <$> (set_summary "AI summary unavailable (no API key)" <$> ps) /\
    Forall (fun q => exists p, q = Some p /\
               summary p = Some "AI summary unavailable (no API key)")
           (papers_at w' papers) /\
    (length papers = 3%nat -> length (papers_at w' papers) = 3%nat) /\
    (forall w0 self,
       ArxivFetcher__init__ (arxiv_categories config)
         (arxiv_time_window_hours config) (arxiv_max_results config) w0
       = (Returned self, w0) ->
       fetch_papers self (keywords config) w0 = (Returned papers, w) ->
       papers <> [] ->
       run_digest config w0 = (Returned (Some papers), w')).
Proof.
  intros Hkey Hat. split.
  { unfold PaperSummarizer__init__. rewrite bind_run. unfold getenv.
    by rewrite Hkey. }
  destruct (summarize_stage_no_key config papers ps w Hkey Hat)
    as (w' & Hrun & (_ & _ & _ & Hlog) & _ & Hat').
  exists w'. split; [done|]. split; [done|]. split; [done|]. split; [|split].
  - rewrite Hat'. apply Forall_fmap, Forall_fmap, Forall_true.
    intros p. simpl. by eexists.
  - intros Hlen. unfold papers_at. by rewrite length_fmap.
  - intros w0 self Hinit Hfetch Hne. unfold run_digest.
    rewrite bind_run, Hinit, bind_run, Hfetch.
    destruct papers as [|l papers]; [done|]. by rewrite bind_run, Hrun.
Qed.

(** C8, amended. [summarize_papers], when it returns, has made a new list of
    new records: as many as the input and in its order, each agreeing with
    its input record on every field but 'summary', which it has; the
    records that existed before, the input among them, are unchanged. The
    step of [run_digest] without a credential writes the summary into the
    input records themselves and returns the input list: there too every
    record agrees with what it was on every field but 'summary'. *)
Theorem summarization_records self config papers ps w :
  papers_at w papers = Some <$> ps ->
  (Forall (fun p => is_Some (_build_prompt p)) ps ->
   exists out w' qs,
     summarize_papers self papers w = (Returned out, w') /\
     Forall (fun l => heap w !! l = None) out /\
     (forall l p, heap w !! l = Some p -> heap w' !! l = Some p) /\
     papers_at w' papers = Some <$> ps /\
     papers_at w' out = Some <$> qs /\
     Forall2 (fun p q => agree_except_summary p q /\ is_Some (summary q)) ps qs) /\
  (environ w !! "OPENAI_API_KEY" = None ->
   exists w' qs,
     summarize_stage config papers w = (Returned papers, w') /\
     (forall l, l ∉ papers -> heap w' !! l = heap w !! l) /\
     papers_at w' papers = Some <$> qs /\
     Forall2 (fun p q => agree_except_summary p q /\ is_Some (summary q)) ps qs).
Proof.
  intros Hat. split.
  - intros Hprompts. unfold summarize_papers.
    destruct (summarize_papers_loop_returns self papers ps [] w Hat Hprompts)
      as (out & w' & Hrun & _ & _ & _ & _ & Hsub & Hnew & _ & Hout).
    exists out, w', (summarized_records self (chat_log w) ps).
    split; [done|]. split; [done|]. split.
    { intros l p Hl. by apply (lookup_weaken _ _ _ _ Hl Hsub). }
    split; [by apply (papers_at_mono w)|]. split; [done|].
    by apply summarized_records_agree.
  - intros Hkey.
    destruct (summarize_stage_no_key config papers ps w Hkey Hat)
      as (w' & Hrun & _ & Hother & Hat').
    exists w', (set_summary NO_KEY_SUMMARY <$> ps).
    split; [done|]. split; [done|]. split; [done|].
    apply Forall2_fmap_r, Forall_Forall2_diag, Forall_true.
    intros p. split; [apply agree_except_summary_set | by eexists].
Qed.

End Summarizer.

Section SummarizerInstances.

Import Sample.

Lemma sample_prompts :
  Forall (fun p => is_Some (_build_prompt p)) [paper1; paper2; paper3].
Proof. repeat constructor; by eexists. Qed.

(** The prompts have to build: an author without name text makes [join]
    raise [TypeError] outside the [try] block of [summarize_paper]. *)
Example summarize_papers_nameless_author_raises :
  fst (@summarize_papers platform summarizer [0%nat] fetched_nameless)
  = Raised TypeError.
Proof. vm_compute. reflexivity. Qed.

Lemma summarize_papers_item_fallback_witness :
  exists out w',
    @summarize_papers platform summarizer [0; 1; 2]%nat (fetched ∅)
    = (Returned out, w') /\
    length out = 3%nat /\
    (fun q => q ≫= summary) <$> papers_at w' out
    = [Some "A real summary."; Some "Summary unavailable"; Some "A real summary."].
Proof.
  destruct (@summarize_papers_item_fallback platform summarizer [0; 1; 2]%nat
              [paper1; paper2; paper3] (fetched ∅) eq_refl sample_prompts)
    as (out & w' & reqs & Hrun & Hlen & _).
  exists out, w'. split; [exact Hrun|]. split; [exact Hlen|].
  vm_compute in Hrun. injection Hrun as <- <-. reflexivity.
Defined.

Lemma no_credential_placeholders_witness :
  exists w',
    @summarize_stage platform config [0; 1; 2]%nat (fetched ∅)
    = (Returned [0; 1; 2]%nat, w') /\
    chat_log w' = [] /\
    papers_at w' [0; 1; 2]%nat
    = Some <$> (set_summary "AI summary unavailable (no API key)"
                  <$> [paper1; paper2; paper3]) /\
    length (papers_at w' [0; 1; 2]%nat) = 3%nat.
Proof.
  destruct (@no_credential_placeholders platform config [0; 1; 2]%nat
              [paper1; paper2; paper3] (fetched ∅) (lookup_empty _) eq_refl)
    as (_ & w' & Hrun & Hlog & Hat & _ & Hlen & _).
  exists w'. split; [exact Hrun|]. split; [exact Hlog|].
  split; [exact Hat | exact (Hlen eq_refl)].
Defined.

(** C8, as stated, fails in the step of [run_digest] without a credential:
    the list it hands on is the list it was given, and the dictionaries of
    that list have been written into. *)
Lemma summarize_stage_in_place_counterexample :
  exists w',
    @summarize_stage platform config [0; 1; 2]%nat (fetched ∅)
    = (Returned [0; 1; 2]%nat, w') /\
    papers_at (fetched ∅) [0; 1; 2]%nat
    = [Some paper1; Some paper2; Some paper3] /\
    papers_at w' [0; 1; 2]%nat
    = [Some (set_summary "AI summary unavailable (no API key)" paper1);
       Some (set_summary "AI summary unavailable (no API key)" paper2);
       Some (set_summary "AI summary unavailable (no API key)" paper3)] /\
    papers_at w' [0; 1; 2]%nat <> papers_at (fetched ∅) [0; 1; 2]%nat.
Proof.
  eexists. split; [vm_compute; reflexivity|]. split; [reflexivity|].
  split; [reflexivity|]. discriminate.
Qed.

Lemma summarization_records_witness :
  (exists out w' qs,
     @summarize_papers platform summarizer [0; 1; 2]%nat (fetched ∅)
     = (Returned out, w') /\
     Forall (fun l => heap (fetched ∅) !! l = None) out /\
     papers_at w' [0; 1; 2]%nat = Some <$> [paper1; paper2; paper3] /\
     papers_at w' out = Some <$> qs /\
     Forall2 (fun p q => agree_except_summary p q /\ is_Some (summary q))
             [paper1; paper2; paper3] qs) /\
  (exists w' qs,
     @summarize_stage platform config [0; 1; 2]%nat (fetched ∅)
     = (Returned [0; 1; 2]%nat, w') /\
     papers_at w' [0; 1; 2]%nat = Some <$> qs /\
     Forall2 (fun p q => agree_except_summary p q /\ is_Some (summary q))
             [paper1; paper2; paper3] qs).
Proof.
  destruct (@summarization_records platform summarizer config [0; 1; 2]%nat
              [paper1; paper2; paper3] (fetched ∅) eq_refl) as [Hnew Hsame].
  split.
  - destruct (Hnew sample_prompts)
      as (out & w' & qs & Hrun & Hfresh & _ & Hin & Hout & Hagree).
    exists out, w', qs.
    exact (conj Hrun (conj Hfresh (conj Hin (conj Hout Hagree)))).
  - destruct (Hsame (lookup_empty _)) as (w' & qs & Hrun & _ & Hat & Hagree).
    exists w', qs. exact (conj Hrun (conj Hat Hagree)).
Defined.

End SummarizerInstances.

(** * Further properties of the code *)

(** ** What a parsed entry holds *)

Section ParsedEntry.

Context `{Platform}.

(** Every field of the record of [entry_fields], traced to the entry. *)
Lemma entry_fields_inv entry p :
  entry_fields entry = Some p ->
  exists raw title_text abstract_text published_str updated_str,
    find (atom "id") entry ≫= text = Some raw /\
    find (atom "title") entry ≫= text = Some title_text /\
    find (atom "summary") entry ≫= text = Some abstract_text /\
    find (atom "published") entry ≫= text = Some published_str /\
    find (atom "updated") entry ≫= text = Some updated_str /\
    fromisoformat (Py.replace_char "Z" "+00:00" published_str) = Some (published p) /\
    fromisoformat (Py.replace_char "Z" "+00:00" updated_str) = Some (updated p) /\
    mapM (fun author => text <$> find (atom "name") author)
         (findall (atom "author") entry) = Some (authors p) /\
    title p = Py.strip title_text /\
    abstract p = Py.strip abstract_text /\
    pdf_url p = pdf_link (findall (atom "link") entry) /\
    arxiv_url p = raw /\
    canonical_id raw = Some (id p) /\
    summary p = None.
Proof.
  unfold entry_fields. intros Hp.
  destruct (find (atom "id") entry) as [id_el|]; [|done]. simpl in Hp |- *.
  repeat match type of Hp with
         | context [?m ≫= _] =>
             match m with
             | context [_ ≫= _] => fail 1
             | _ => destruct m eqn:?; simpl in Hp; [|discriminate]
             end
         | context [_ <$> ?m] => destruct m eqn:?; simpl in Hp; [|discriminate]
         end.
  repeat match goal with
         | Hs : _ <$> ?m = Some _ |- _ =>
             destruct m eqn:?; simpl in Hs; [injection Hs as <- | discriminate Hs]
         end.
  injection Hp as <-. simpl. eexists _, _, _, _, _. repeat split; eauto.
Qed.

End ParsedEntry.

(** ** The fetcher, whatever its outcome *)

Section FetcherFrame.

Context `{Platform}.

Lemma datetime_ge_raises d1 d2 e : datetime_ge d1 d2 = inl e -> e = TypeError.
Proof. destruct d1, d2; simpl; congruence. Qed.

(** The loop over the entries, for every feed and every outcome: it touches
    the heap only by adding dictionaries, it can only raise [TypeError], and
    what it returns is the list it was given followed by new, distinct
    dictionaries, which are, in feed order, the records of some of the
    entries, each with a date that passed the comparison. *)
Lemma fetch_papers_loop_any self entries :
  forall papers w r w',
    fetch_papers_loop self entries papers w = (r, w') ->
    same_outside_heap w w' /\ heap w ⊆ heap w' /\
    (forall e, r = Raised e -> e = TypeError) /\
    (forall ls, r = Returned ls ->
       exists new kept,
         ls = papers ++ new /\ NoDup new /\
         Forall (fun l => heap w !! l = None) new /\
         sublist kept entries /\
         Forall2 (fun l e => exists p,
                     entry_fields e = Some p /\ heap w' !! l = Some p /\
                     datetime_ge (published p) (cutoff_date self) = inr true)
                 new kept).
Proof.
  induction entries as [|e entries IH]; intros papers w r w' Hrun.
  - injection Hrun as <- <-. split; [apply same_outside_heap_refl|].
    split; [done|]. split; [done|]. intros ls [= <-]. exists [], [].
    rewrite app_nil_r. repeat split; constructor.
  - cbn [fetch_papers_loop] in Hrun. rewrite bind_run in Hrun.
    unfold _parse_entry in Hrun. destruct (entry_fields e) as [p|] eqn:Hp.
    + rewrite bind_run in Hrun.
      destruct (alloc_run p w) as (l & w1 & Halloc & Hfresh & Hheap & Hsame).
      rewrite Halloc in Hrun. cbn [mret M_ret ret] in Hrun.
      rewrite bind_run in Hrun.
      assert (heap w1 !! l = Some p) as Hl
        by (rewrite Hheap; apply lookup_insert_eq).
      assert (heap w ⊆ heap w1) as Hsub
        by (rewrite Hheap; by apply insert_subseteq).
      rewrite (read_run l p w1 Hl) in Hrun.
      destruct (datetime_ge (published p) (cutoff_date self)) as [e'|[|]] eqn:Hge.
      * injection Hrun as <- <-. split; [done|]. split; [done|].
        split; [|done]. intros e'' [= <-]. by eapply datetime_ge_raises.
      * destruct (IH _ _ _ _ Hrun) as (Hsame' & Hsub' & Hraise & Hret).
        split; [by eapply same_outside_heap_trans|]. split; [by etrans|].
        split; [done|]. intros ls Hls.
        destruct (Hret ls Hls) as (new & kept & -> & Hnodup & Hnew & Hkept & Hrec).
        exists (l :: new), (e :: kept). rewrite <- app_assoc.
        split; [done|]. split.
        { constructor; [|done]. intros Hin. rewrite Forall_forall in Hnew.
          specialize (Hnew _ Hin). congruence. }
        split.
        { constructor; [done|]. eapply Forall_impl; [exact Hnew|].
          intros l' Hl'. simpl in Hl'. by eapply lookup_weaken_None. }
        split; [by apply sublist_skip|].
        constructor; [|done]. exists p. split; [done|]. split; [|done].
        by apply (lookup_weaken _ _ _ _ Hl Hsub').
      * destruct (IH _ _ _ _ Hrun) as (Hsame' & Hsub' & Hraise & Hret).
        split; [by eapply same_outside_heap_trans|]. split; [by etrans|].
        split; [done|]. intros ls Hls.
        destruct (Hret ls Hls) as (new & kept & -> & Hnodup & Hnew & Hkept & Hrec).
        exists new, kept. split; [done|]. split; [done|]. split.
        { eapply Forall_impl; [exact Hnew|].
          intros l' Hl'. simpl in Hl'. by eapply lookup_weaken_None. }
        split; [by apply sublist_cons | done].
    + cbn [mret M_ret ret] in Hrun.
      destruct (IH _ _ _ _ Hrun) as (Hsame' & Hsub' & Hraise & Hret).
      split; [done|]. split; [done|]. split; [done|]. intros ls Hls.
      destruct (Hret ls Hls) as (new & kept & -> & Hnodup & Hnew & Hkept & Hrec).
      exists new, kept. split; [done|]. split; [done|]. split; [done|].
      split; [by apply sublist_cons | done].
Qed.


(** X2. When [fetch_papers] returns, its result is a list of distinct
    dictionaries that did not exist before, and it corresponds, in feed
    order, to some of the entries of the feed: each dictionary is the record
    of its entry, has no 'summary' key, and has a published date that
    passed the comparison with the cutoff. The result is never longer than
    the feed. *)
Theorem fetch_papers_result_records self keyword_groups w ls w' :
  fetch_papers self keyword_groups w = (Returned ls, w') ->
  NoDup ls /\
  Forall (fun l => heap w !! l = None) ls /\
  (length ls <= length (feed_entries self keyword_groups w))%nat /\
  exists kept,
    sublist kept (feed_entries self keyword_groups w) /\
    Forall2 (fun l e => exists p,
                entry_fields e = Some p /\ heap w' !! l = Some p /\
                summary p = None /\
                datetime_ge (published p) (cutoff_date self) = inr true)
            ls kept.
Proof.
  unfold fetch_papers, feed_entries. rewrite bind_run. unfold urlopen_read.
  destruct (feed_reply _ _) as [data|err].
  2:{ intros [= <- <-]. repeat split; try constructor. exists []. by split. }
  destruct (ET_fromstring data) as [root|]; [|done]. intros Hrun.
  destruct (fetch_papers_loop_any _ _ _ _ _ _ Hrun) as (_ & _ & _ & Hret).
  destruct (Hret ls eq_refl) as (new & kept & -> & Hnodup & Hnew & Hkept & Hrec).
  simpl. split; [done|]. split; [done|]. split.
  - rewrite (Forall2_length _ _ _ Hrec). by apply sublist_length.
  - exists kept. split; [done|]. eapply Forall2_impl; [exact Hrec|].
    intros l e (p & Hp & Hl & Hge). exists p. repeat split; try done.
    by destruct (entry_fields_inv e p Hp)
      as (? & ? & ? & ? & ? & ? & ? & ? & ? & ? & ? & ? & ? & ? & ? & ? & ? & ? & ?).
Qed.

(** A feed in two parts: the loop over the whole is the loop over the
    first part, then over the second with what the first has left. *)
Lemma fetch_papers_loop_app self entries1 entries2 :
  forall papers w,
    fetch_papers_loop self (entries1 ++ entries2) papers w
    = match fetch_papers_loop self entries1 papers w with
      | (Returned kept, w1) => fetch_papers_loop self entries2 kept w1
      | (Raised e, w1) => (Raised e, w1)
      end.
Proof.
  induction entries1 as [|e entries1 IH]; intros papers w; [done|].
  simpl app. cbn [fetch_papers_loop]. rewrite !bind_run.
  destruct (_parse_entry self e w) as [[[l|]|err] w1]; [|apply IH|done].
  rewrite !bind_run. destruct (read l w1) as [[d|err] w2]; [|done].
  destruct (datetime_ge _ _) as [err|[|]]; [done|apply IH..].
Qed.

(** X3. A published date without UTC offset ends the whole fetch: when the
    entries before it are kept or dropped in the regular way and the entry
    itself parses to a naive date, [fetch_papers] raises [TypeError] and
    returns no paper at all, not even those before the entry. *)
Theorem fetch_papers_naive_date_aborts self keyword_groups w data root c off
    before e p after :
  feed_reply (http_log w) (request_url self keyword_groups) = HttpBody data ->
  ET_fromstring data = Some root ->
  cutoff_date self = Aware c off ->
  findall (atom "entry") root = before ++ e :: after ->
  Forall (fun e' => forall p', entry_fields e' = Some p' -> aware (published p'))
         before ->
  entry_fields e = Some p ->
  ~ aware (published p) ->
  (fetch_papers self keyword_groups w).1 = Raised TypeError.
Proof.
  intros Hreply Hxml Hcut Hentries Hbefore Hp Hnaive.
  unfold fetch_papers. rewrite bind_run. unfold urlopen_read.
  rewrite Hreply, Hxml, Hentries, fetch_papers_loop_app.
  match goal with
  | |- context [fetch_papers_loop self before [] ?w1] =>
      destruct (fetch_papers_loop_returns self c off before Hcut Hbefore [] w1)
        as (ls & w2 & -> & _)
  end.
  cbn [fetch_papers_loop]. rewrite bind_run. unfold _parse_entry. rewrite Hp.
  rewrite bind_run.
  destruct (alloc_run p w2) as (l & w3 & -> & _ & Hheap & _).
  cbn [mret M_ret ret]. rewrite bind_run.
  rewrite (read_run l p w3) by (rewrite Hheap; apply lookup_insert_eq).
  rewrite Hcut. destruct (published p); [by destruct Hnaive|done].
Qed.

End FetcherFrame.

Section FetcherFrameInstances.

Import Sample.

Lemma fetch_papers_result_records_witness :
  exists ls w',
    @fetch_papers platform fetcher [["simulation"]] (world (T0 + 24 * hour) ∅)
    = (Returned ls, w') /\
    NoDup ls /\ (length ls <= 5)%nat.
Proof.
  destruct (@fetch_papers platform fetcher [["simulation"]]
              (world (T0 + 24 * hour) ∅)) as [[ls|e] w'] eqn:Hrun;
    [|by vm_compute in Hrun].
  exists ls, w'. split; [reflexivity|].
  destruct (@fetch_papers_result_records platform fetcher [["simulation"]]
              (world (T0 + 24 * hour) ∅) ls w' Hrun) as (Hnodup & _ & Hlen & _).
  split; [exact Hnodup | exact Hlen].
Defined.

Lemma fetch_papers_naive_date_aborts_witness :
  (@fetch_papers (platform_of feed_naive (HttpBody "<feed>")) fetcher
     [["simulation"]] (world (T0 + 24 * hour) ∅)).1 = Raised TypeError.
Proof.
  destruct (@entry_fields platform e_naive) as [p|] eqn:Hp;
    [|by vm_compute in Hp].
  apply (@fetch_papers_naive_date_aborts (platform_of feed_naive (HttpBody "<feed>"))
           fetcher [["simulation"]] (world (T0 + 24 * hour) ∅) "<feed>"
           feed_naive T0 0 [e1] e_naive p [e2]);
    [reflexivity..| | exact Hp |].
  - repeat constructor. intros p' Hp'. vm_compute in Hp'. by injection Hp' as <-.
  - vm_compute in Hp. injection Hp as <-. intros [].
Defined.

End FetcherFrameInstances.

(** ** The window, and a run that fetches nothing *)

Section WindowAndRun.

Context `{Platform}.

Lemma filter_recent_sublist c1 c2 (ps : list Paper) :
  c2 <= c1 ->
  sublist (filter (fun p => recent c1 p) ps) (filter (fun p => recent c2 p) ps).
Proof.
  intros Hle. induction ps as [|p ps IH]; [constructor|].
  rewrite !filter_cons.
  destruct (decide (recent c1 p)) as [H1|H1].
  - rewrite decide_True; [by apply sublist_skip|].
    unfold recent, recent_instant in *. destruct (published p); [|done].
    apply Is_true_true, Z.leb_le in H1. apply Is_true_true, Z.leb_le. lia.
  - destruct (decide (recent c2 p)); [by apply sublist_cons | done].
Qed.

(** X4. A wider time window never loses a paper: of two fetchers that were
    made at the same time for the same categories and result cap, the one
    with the larger [time_window_hours] sends the same request and returns,
    for the same feed, every record the other returns, in the same order. *)
Theorem wider_window_keeps_more cats h1 h2 cap keyword_groups w0 w data root
    self1 self2 :
  ArxivFetcher__init__ cats h1 cap w0 = (Returned self1, w0) ->
  ArxivFetcher__init__ cats h2 cap w0 = (Returned self2, w0) ->
  h1 <= h2 ->
  feed_reply (http_log w) (request_url self1 keyword_groups) = HttpBody data ->
  ET_fromstring data = Some root ->
  Forall (fun e => forall p, entry_fields e = Some p -> aware (published p))
         (findall (atom "entry") root) ->
  request_url self2 keyword_groups = request_url self1 keyword_groups /\
  exists ls1 w1 ls2 w2 ps1 ps2,
    fetch_papers self1 keyword_groups w = (Returned ls1, w1) /\
    fetch_papers self2 keyword_groups w = (Returned ls2, w2) /\
    papers_at w1 ls1 = Some <$> ps1 /\
    papers_at w2 ls2 = Some <$> ps2 /\
    sublist ps1 ps2.
Proof.
  intros Hinit1 Hinit2 Hle Hreply Hxml Haware.
  apply ArxivFetcher_init_returned in Hinit1 as (_ & _ & ->).
  apply ArxivFetcher_init_returned in Hinit2 as (_ & _ & ->).
  split; [reflexivity|].
  match type of Hreply with
  | context [request_url ?self1 _] =>
      destruct (fetch_papers_returns self1 keyword_groups w data root _ 0
                  Hreply Hxml eq_refl Haware)
        as (ls1 & w1 & Hrun1 & _ & _ & _ & _ & _ & Hat1)
  end.
  match goal with
  | |- context [fetch_papers ?self2 keyword_groups w = (Returned _, _) /\
                papers_at _ _ = _ /\ _] =>
      destruct (fetch_papers_returns self2 keyword_groups w data root _ 0
                  Hreply Hxml eq_refl Haware)
        as (ls2 & w2 & Hrun2 & _ & _ & _ & _ & _ & Hat2)
  end.
  eexists ls1, w1, ls2, w2, _, _. split; [done|]. split; [done|].
  split; [exact Hat1|]. split; [exact Hat2|].
  apply filter_recent_sublist. unfold timedelta_hours. lia.
Qed.

(** X5. When the fetcher has been made and the fetch returns no paper or
    raises, [run_digest] ends there: it returns [None] (or lets the same
    exception through), and the world is as the fetch left it: the
    credential is not looked up and the summarization service is not
    called. *)
Theorem run_digest_nothing_fetched config w self :
  ArxivFetcher__init__ (arxiv_categories config) (arxiv_time_window_hours config)
    (arxiv_max_results config) w = (Returned self, w) ->
  (fetch_papers self (keywords config) w).1 = Returned [] \/
  (exists e, (fetch_papers self (keywords config) w).1 = Raised e) ->
  (run_digest config w).2 = (fetch_papers self (keywords config) w).2 /\
  (run_digest config w).1
  = match (fetch_papers self (keywords config) w).1 with
    | Returned _ => Returned None
    | Raised e => Raised e
    end.
Proof.
  intros Hinit Hnothing. unfold run_digest. rewrite bind_run, Hinit, bind_run.
  destruct (fetch_papers self (keywords config) w) as [[ls|e] w1].
  - destruct Hnothing as [[= ->]|[e [=]]]. done.
  - done.
Qed.

(** X22. A window that is out of the range of [timedelta], or that leads
    out of the range of [datetime], ends the run in the constructor of the
    fetcher: [ArxivFetcher.__init__] raises
    [OverflowError], [run_digest] does not catch it, and nothing has been
    requested from the feed or the service. *)
Theorem window_out_of_range_raises config w :
  ~ window_in_range (clock w) (arxiv_time_window_hours config) ->
  ArxivFetcher__init__ (arxiv_categories config) (arxiv_time_window_hours config)
    (arxiv_max_results config) w = (Raised OverflowError, w) /\
  run_digest config w = (Raised OverflowError, w).
Proof.
  intros Hout.
  pose proof (ArxivFetcher_init_raises (arxiv_categories config)
                (arxiv_time_window_hours config) (arxiv_max_results config)
                w Hout) as Hinit.
  split; [done|]. unfold run_digest. by rewrite bind_run, Hinit.
Qed.

End WindowAndRun.

Section WindowAndRunInstances.

Import Sample.

Lemma wider_window_keeps_more_witness :
  exists ls1 w1 ls2 w2 ps1 ps2,
    @fetch_papers (platform_of feed3 (HttpBody "<feed>"))
      {| categories := ["cs.AI"]; time_window_hours := 24; max_results := 50;
         cutoff_date := Aware (T0 + 24 * hour - timedelta_hours 24) 0 |}
      [["simulation"]] (world (T0 + 24 * hour) ∅) = (Returned ls1, w1) /\
    @fetch_papers (platform_of feed3 (HttpBody "<feed>"))
      {| categories := ["cs.AI"]; time_window_hours := 48; max_results := 50;
         cutoff_date := Aware (T0 + 24 * hour - timedelta_hours 48) 0 |}
      [["simulation"]] (world (T0 + 24 * hour) ∅) = (Returned ls2, w2) /\
    papers_at w1 ls1 = Some <$> ps1 /\
    papers_at w2 ls2 = Some <$> ps2 /\
    sublist ps1 ps2.
Proof.
  apply (@wider_window_keeps_more (platform_of feed3 (HttpBody "<feed>"))
           ["cs.AI"] 24 48 50 [["simulation"]] (world (T0 + 24 * hour) ∅)
           (world (T0 + 24 * hour) ∅) "<feed>" feed3
           {| categories := ["cs.AI"]; time_window_hours := 24; max_results := 50;
              cutoff_date := Aware (T0 + 24 * hour - timedelta_hours 24) 0 |}
           {| categories := ["cs.AI"]; time_window_hours := 48; max_results := 50;
              cutoff_date := Aware (T0 + 24 * hour - timedelta_hours 48) 0 |});
    [reflexivity | reflexivity | lia | reflexivity | reflexivity |].
  apply sample_entries_aware. by left.
Defined.

Lemma run_digest_nothing_fetched_witness :
  (@run_digest platform_offline config (world T0 ∅)).1 = Returned None /\
  chat_log (@run_digest platform_offline config (world T0 ∅)).2 = [].
Proof.
  destruct (@run_digest_nothing_fetched platform_offline config (world T0 ∅)
              {| categories := ["cond-mat.mtrl-sci"]; time_window_hours := 24;
                 max_results := 50;
                 cutoff_date := Aware (T0 - timedelta_hours 24) 0 |})
    as [Hworld Hresult]; [reflexivity | left; reflexivity|].
  split; [exact Hresult | rewrite Hworld; reflexivity].
Defined.

Lemma window_out_of_range_raises_witness :
  @run_digest platform
    {| arxiv_categories := ["cond-mat.mtrl-sci"];
       arxiv_time_window_hours := 18000000; arxiv_max_results := 50;
       keywords := [["simulation"]]; openai_model := "gpt-4o-mini";
       openai_max_tokens := 150; openai_temperature := 3 # 10 |}
    (world (T0 + 24 * hour) ∅)
  = (Raised OverflowError, world (T0 + 24 * hour) ∅).
Proof.
  apply (@window_out_of_range_raises platform
           {| arxiv_categories := ["cond-mat.mtrl-sci"];
              arxiv_time_window_hours := 18000000; arxiv_max_results := 50;
              keywords := [["simulation"]]; openai_model := "gpt-4o-mini";
              openai_max_tokens := 150; openai_temperature := 3 # 10 |}
           (world (T0 + 24 * hour) ∅)).
  unfold window_in_range. vm_compute. intros [_ [Hmin _]]. by apply Hmin.
Defined.

End WindowAndRunInstances.

(** ** Stripping and splitting *)

Section StripSplit.

Lemma lstrip_spec s :
  exists a, s = a +:+ Py.lstrip s /\ blank a = true /\
            forall c, first_char (Py.lstrip s) = Some c -> Py.isspace c = false.
Proof.
  induction s as [|c s (a & Hs & Ha & Hfirst)].
  - by exists "".
  - simpl. destruct (Py.isspace c) eqn:Hc.
    + exists (String c a). simpl. rewrite Hc, Ha. split; [congruence|done].
    + exists "". split; [done|]. split; [done|]. simpl. congruence.
Qed.

Lemma rstrip_spec s :
  exists b, s = Py.rstrip s +:+ b /\ blank b = true /\
            (forall c, last_char (Py.rstrip s) = Some c -> Py.isspace c = false) /\
            first_char (Py.rstrip s)
            = if blank s then None else first_char s.
Proof.
  induction s as [|c s (b & Hs & Hb & Hlast & Hfirst)].
  - by exists "".
  - simpl. destruct (Py.rstrip s) as [|c' r] eqn:Hr.
    + simpl in Hs. subst b. rewrite Hb, andb_true_r.
      destruct (Py.isspace c) eqn:Hc.
      * exists (String c s). simpl. by rewrite Hc, Hb.
      * exists s. simpl. split; [done|]. split; [done|]. split; [|done].
        congruence.
    + exists b. simpl. split; [by rewrite Hs|]. split; [done|]. split; [done|].
      simpl in Hfirst. destruct (blank s); [done|].
      by rewrite andb_false_r.
Qed.

(** [strip] takes whitespace off both ends and nothing else. *)
Lemma strip_spec s :
  exists a b, s = a +:+ Py.strip s +:+ b /\ blank a = true /\ blank b = true /\
              stripped (Py.strip s).
Proof.
  unfold Py.strip. destruct (lstrip_spec s) as (a & Hs & Ha & Hfirst).
  destruct (rstrip_spec (Py.lstrip s)) as (b & Hl & Hb & Hlast & Hhead).
  exists a, b. split; [by rewrite <- Hl|]. split; [done|]. split; [done|].
  split; [|done]. intros c. rewrite Hhead.
  destruct (blank (Py.lstrip s)); [done|]. apply Hfirst.
Qed.

Lemma last_piece_suffix sep s t : last_piece sep s t -> exists pre, s = pre +:+ t.
Proof.
  induction 1 as [s _|pre rest t _ _ [pre' ->]]; [by exists ""|].
  exists (pre +:+ sep +:+ pre'). by rewrite !append_assoc.
Qed.

Lemma last_piece_free sep s t :
  last_piece sep s t -> forall i, ~ occurs_at sep t i.
Proof. induction 1; done. Qed.

Lemma canonical_id_idem raw t :
  canonical_id raw = Some t -> canonical_id t = Some t.
Proof.
  intros Hid. destruct (canonical_id_last_piece raw) as (t' & Hid' & Hpiece).
  assert (t' = t) as -> by congruence.
  destruct (canonical_id_last_piece t) as (t'' & Hid'' & Hpiece').
  rewrite Hid''. f_equal.
  apply (last_piece_no_occurrence "/abs/"); [done..|].
  by apply (last_piece_free "/abs/" raw).
Qed.

Lemma occurs_at_app_l sub s rest i : occurs_at sub s i -> occurs_at sub (s +:+ rest) i.
Proof.
  intros (pre & post & -> & <-). exists pre, (post +:+ rest).
  by rewrite !append_assoc.
Qed.

(** The pieces of a split, joined again, are the text; no piece holds the
    separator. *)
Lemma split_from_join sep fuel s :
  sep <> "" -> (String.length s <= fuel)%nat ->
  Py.split_from fuel sep s <> [] /\
  Py.join sep (Py.split_from fuel sep s) = s /\
  Forall (fun piece => ~ contains sep piece) (Py.split_from fuel sep s).
Proof.
  intros Hsep. revert s. induction fuel as [|fuel IH]; intros s Hlen.
  - destruct s; [|simpl in Hlen; lia]. destruct sep; [done|]. simpl.
    split; [done|]. split; [done|]. constructor; [|constructor].
    intros [i Hi]. apply occurs_at_startswith in Hi; [|done]. by destruct i.
  - cbn [Py.split_from]. destruct (Py.find sep s) as [i|] eqn:Hf.
    + destruct (find_Some _ _ _ Hf) as [Hocc Hmin].
      apply occurs_at_startswith in Hocc as (pre & post & -> & <-); [|done].
      rewrite slice_to_length.
      replace (Py.slice_from _ _) with post.
      2:{ rewrite <- append_assoc, <- length_append.
          by rewrite slice_from_length. }
      destruct (IH post) as (Hne & Hjoin & Hfree).
      { rewrite !length_append in Hlen. destruct sep; [done|].
        simpl in Hlen. lia. }
      split; [done|]. split.
      * destruct (Py.split_from fuel sep post) as [|x l]; [done|].
        change (pre +:+ sep +:+ Py.join sep (x :: l) = pre +:+ sep +:+ post).
        by rewrite Hjoin.
      * constructor; [|done]. intros [j Hj].
        assert (j < String.length pre)%nat as Hlt.
        { destruct Hj as (a & b & -> & <-). rewrite !length_append.
          destruct sep; [done|]. simpl. lia. }
        apply (occurs_at_app_l _ _ (sep +:+ post)), occurs_at_startswith in Hj;
          [|done].
        by rewrite (Hmin _ Hlt) in Hj.
    + split; [done|]. split; [done|]. constructor; [|constructor].
      intros [i Hi]. apply occurs_at_startswith in Hi; [|done].
      by rewrite (find_None _ _ i Hf) in Hi.
Qed.

(** X6. The raw id is put together again from the pieces [split('/abs/')]
    cuts it into: joined by "/abs/" they are the raw id, none of them holds
    "/abs/", and the canonical id is the last of them. *)
Theorem raw_id_split_join raw :
  exists pieces,
    Py.split "/abs/" raw = Some pieces /\
    Py.join "/abs/" pieces = raw /\
    Forall (fun piece => ~ contains "/abs/" piece) pieces /\
    canonical_id raw = last pieces /\ is_Some (last pieces).
Proof.
  destruct (split_from_join "/abs/" (String.length raw) raw) as (Hne & Hjoin & Hfree);
    [done|lia|].
  exists (Py.split_from (String.length raw) "/abs/" raw).
  split; [done|]. split; [done|]. split; [done|]. split; [done|].
  destruct (canonical_id_last_piece raw) as (t & Hid & _).
  unfold canonical_id, Py.split in Hid. simpl in Hid. by eexists.
Qed.

End StripSplit.

Section ParsedRecord.

Context `{Platform}.

(** X7. The id of a parsed record is an end piece of its landing-page URL
    and holds no "/abs/": taking the canonical id of it again changes
    nothing. *)
Theorem parsed_id_suffix_of_url entry p :
  entry_fields entry = Some p ->
  (exists pre, arxiv_url p = pre +:+ id p) /\
  ~ contains "/abs/" (id p) /\
  canonical_id (id p) = Some (id p).
Proof.
  intros Hp. destruct (entry_fields_id entry p Hp) as (raw & _ & Hurl & Hid).
  rewrite <- Hurl in Hid. clear Hurl raw.
  destruct (canonical_id_last_piece (arxiv_url p)) as (t & Hid' & Hpiece).
  assert (t = id p) as -> by congruence.
  split; [by apply (last_piece_suffix "/abs/")|]. split.
  - intros [i Hi]. by apply (last_piece_free _ _ _ Hpiece i).
  - by apply (canonical_id_idem (arxiv_url p)).
Qed.

(** X8. Title and abstract of a parsed record are the texts of the title
    and summary elements with the whitespace at both ends taken off, and
    nothing else: they neither begin nor end with whitespace. *)
Theorem parsed_texts_stripped entry p :
  entry_fields entry = Some p ->
  (exists text_ a b,
     find (atom "title") entry ≫= text = Some text_ /\
     text_ = a +:+ title p +:+ b /\ blank a = true /\ blank b = true /\
     stripped (title p)) /\
  (exists text_ a b,
     find (atom "summary") entry ≫= text = Some text_ /\
     text_ = a +:+ abstract p +:+ b /\ blank a = true /\ blank b = true /\
     stripped (abstract p)).
Proof.
  intros Hp.
  destruct (entry_fields_inv entry p Hp)
    as (raw & tt & at_ & ps & us & _ & Htitle & Habs & _ & _ & _ & _ & _
        & Ht & Ha & _).
  split.
  - destruct (strip_spec tt) as (a & b & Hs & Hba & Hbb & Hst).
    exists tt, a, b. rewrite Ht. done.
  - destruct (strip_spec at_) as (a & b & Hs & Hba & Hbb & Hst).
    exists at_, a, b. rewrite Ha. done.
Qed.

End ParsedRecord.

Section ParsedRecordInstances.

Import Sample.

Lemma parsed_id_suffix_of_url_witness :
  exists p,
    @entry_fields platform e1 = Some p /\
    (exists pre, arxiv_url p = pre +:+ id p) /\
    canonical_id (id p) = Some (id p).
Proof.
  destruct (@entry_fields platform e1) as [p|] eqn:Hp; [|by vm_compute in Hp].
  exists p. split; [reflexivity|].
  destruct (@parsed_id_suffix_of_url platform e1 p Hp) as (Hpre & _ & Hidem).
  split; [exact Hpre | exact Hidem].
Defined.

Lemma parsed_texts_stripped_witness :
  exists p,
    @entry_fields platform e1 = Some p /\
    stripped (title p) /\ stripped (abstract p).
Proof.
  destruct (@entry_fields platform e1) as [p|] eqn:Hp; [|by vm_compute in Hp].
  exists p. split; [reflexivity|].
  destruct (@parsed_texts_stripped platform e1 p Hp)
    as [(? & ? & ? & _ & _ & _ & _ & Ht) (? & ? & ? & _ & _ & _ & _ & Ha)].
  split; [exact Ht | exact Ha].
Defined.

End ParsedRecordInstances.

(** ** What makes an entry fail, and what its fields are made of *)

Section EntryFields.

Context `{Platform}.

(** X9. An entry parses only if each of the elements id, title, summary,
    published and updated is there and has text: when one of them is
    missing or empty, [_parse_entry] gives [None] and creates no
    dictionary, in whatever state it is called. *)
Theorem parse_entry_required_fields self entry name w :
  name ∈ ["id"; "title"; "summary"; "published"; "updated"] ->
  find (atom name) entry ≫= text = None ->
  entry_fields entry = None /\
  _parse_entry self entry w = (Returned None, w).
Proof.
  intros Hname Hmissing.
  assert (entry_fields entry = None) as Hnone.
  { destruct (entry_fields entry) as [p|] eqn:Hp; [|done].
    destruct (entry_fields_inv entry p Hp)
      as (raw & tt & at_ & ps & us & Hid & Htitle & Habs & Hpub & Hupd & _).
    repeat (apply elem_of_cons in Hname as [->|Hname]; [congruence|]).
    by apply elem_of_nil in Hname. }
  split; [done|]. unfold _parse_entry. by rewrite Hnone.
Qed.

(** X10. The authors of a parsed record are, in order, the texts of the
    first name element of each author element, [None] where that element
    is empty; an author element without a name element makes the whole
    entry fail. *)
Theorem parsed_authors entry :
  (forall p,
     entry_fields entry = Some p ->
     Forall2 (fun author name => text <$> find (atom "name") author = Some name)
             (findall (atom "author") entry) (authors p)) /\
  (forall author,
     author ∈ findall (atom "author") entry ->
     find (atom "name") author = None ->
     entry_fields entry = None).
Proof.
  split.
  - intros p Hp.
    destruct (entry_fields_inv entry p Hp)
      as (raw & tt & at_ & ps & us & _ & _ & _ & _ & _ & _ & _ & Hauthors & _).
    by apply mapM_Some_1.
  - intros author Hin Hname.
    destruct (entry_fields entry) as [p|] eqn:Hp; [|done].
    destruct (entry_fields_inv entry p Hp)
      as (raw & tt & at_ & ps & us & _ & _ & _ & _ & _ & _ & _ & Hauthors & _).
    apply mapM_Some_1 in Hauthors.
    apply list_elem_of_lookup in Hin as [i Hi].
    destruct (Forall2_lookup_l _ _ _ _ _ Hauthors Hi) as (name & _ & Hn).
    by rewrite Hname in Hn.
Qed.

Lemma pdf_link_none links :
  Forall (fun link => attrib link !! "title" <> Some "pdf") links ->
  pdf_link links = None.
Proof.
  induction 1 as [|link links Hlink _ IH]; [done|].
  simpl. by rewrite decide_False.
Qed.

Lemma pdf_link_first before link after :
  Forall (fun link' => attrib link' !! "title" <> Some "pdf") before ->
  attrib link !! "title" = Some "pdf" ->
  pdf_link (before ++ link :: after) = attrib link !! "href".
Proof.
  intros Hbefore Hlink. induction Hbefore as [|l ls Hl _ IH]; simpl.
  - by rewrite decide_True.
  - by rewrite decide_False.
Qed.

Lemma filter_tag_other path (l : list Element) :
  path <> atom "link" ->
  filter (fun c => tag c = path) (filter (fun c => tag c <> atom "link") l)
  = filter (fun c => tag c = path) l.
Proof.
  intros Hpath. induction l as [|c l IH]; [done|].
  rewrite !filter_cons. destruct (decide (tag c <> atom "link")) as [Hc|Hc].
  - rewrite filter_cons. destruct (decide (tag c = path)); by rewrite IH.
  - rewrite decide_False; [done|]. intros Heq. apply Hc. congruence.
Qed.

Lemma findall_other path e e' :
  path <> atom "link" ->
  other_children e' = other_children e ->
  findall path e' = findall path e.
Proof.
  intros Hpath Hsame. unfold findall.
  rewrite <- (filter_tag_other path (children e')) by done.
  rewrite <- (filter_tag_other path (children e)) by done.
  unfold other_children in Hsame. by rewrite Hsame.
Qed.

(** The links of an entry decide on nothing but the PDF URL. *)
Lemma entry_fields_links entry entry' p :
  entry_fields entry = Some p ->
  other_children entry' = other_children entry ->
  entry_fields entry'
  = Some (set_pdf_url (pdf_link (findall (atom "link") entry')) p).
Proof.
  intros Hp Hsame.
  assert (forall name, atom name <> atom "link" ->
                       findall (atom name) entry' = findall (atom name) entry)
    as Hall by (intros name Hname; by apply findall_other).
  assert (forall name, atom name <> atom "link" ->
                       find (atom name) entry' = find (atom name) entry)
    as Hfind by (intros name Hname; unfold find; by rewrite Hall).
  unfold entry_fields in Hp |- *.
  rewrite (Hfind "id"), (Hfind "title"), (Hfind "summary"),
    (Hfind "published"), (Hfind "updated"), (Hall "author")
    by (intros Heq; vm_compute in Heq; discriminate).
  destruct (find (atom "id") entry) as [id_el|]; [|done].
  simpl in Hp |- *.
  repeat match type of Hp with
         | context [?m ≫= _] =>
             match m with
             | context [_ ≫= _] => fail 1
             | _ => destruct m eqn:?; simpl in Hp |- *; [|discriminate]
             end
         | context [_ <$> ?m] =>
             destruct m eqn:?; simpl in Hp |- *; [|discriminate]
         end.
  by injection Hp as <-.
Qed.

(** X11. The links of an entry decide on nothing but the PDF URL: an entry
    that differs from a parsed one in its link elements only parses too,
    to the same record but for the PDF URL. That is the [href] of the first
    link element whose title is "pdf", whatever links come before or after
    it ([None] when that link has no [href]), and it is [None] when no link
    has the title "pdf". *)
Theorem parsed_pdf_url entry p :
  entry_fields entry = Some p ->
  forall entry',
    other_children entry' = other_children entry ->
    entry_fields entry'
    = Some (set_pdf_url (pdf_link (findall (atom "link") entry')) p) /\
    (Forall (fun link => attrib link !! "title" <> Some "pdf")
            (findall (atom "link") entry') ->
     entry_fields entry' = Some (set_pdf_url None p)) /\
    (forall before link after,
       findall (atom "link") entry' = before ++ link :: after ->
       Forall (fun link' => attrib link' !! "title" <> Some "pdf") before ->
       attrib link !! "title" = Some "pdf" ->
       entry_fields entry' = Some (set_pdf_url (attrib link !! "href") p)).
Proof.
  intros Hp entry' Hsame.
  pose proof (entry_fields_links entry entry' p Hp Hsame) as Hp'.
  split; [done|]. split.
  - intros Hnone. by rewrite Hp', (pdf_link_none _ Hnone).
  - intros before link after Hlinks Hbefore Hlink.
    by rewrite Hp', Hlinks, (pdf_link_first _ _ _ Hbefore Hlink).
Qed.

End EntryFields.

Section EntryFieldsInstances.

Import Sample.

Lemma parse_entry_required_fields_witness :
  @entry_fields platform entry_without_title = None /\
  @_parse_entry platform fetcher entry_without_title (world T0 ∅)
  = (Returned None, world T0 ∅).
Proof.
  apply (@parse_entry_required_fields platform fetcher entry_without_title "title");
    [|reflexivity].
  apply list_elem_of_further, list_elem_of_here.
Defined.

Lemma parsed_pdf_url_witness :
  exists p,
    @entry_fields platform e1 = Some p /\
    @entry_fields platform e1_without_link = Some (set_pdf_url None p) /\
    @entry_fields platform e1_with_links
    = Some (set_pdf_url (Some "http://arxiv.org/pdf/first") p).
Proof.
  destruct (@entry_fields platform e1) as [p|] eqn:Hp; [|by vm_compute in Hp].
  exists p. split; [reflexivity|]. split.
  - destruct (@parsed_pdf_url platform e1 p Hp e1_without_link eq_refl)
      as (_ & Hnone & _).
    apply Hnone. constructor.
  - destruct (@parsed_pdf_url platform e1 p Hp e1_with_links eq_refl)
      as (_ & _ & Hfirst).
    rewrite (Hfirst
               [Elem (atom "link")
                     {[ "rel" := "alternate"; "href" := "http://arxiv.org/abs/x" ]}
                     None []]
               (Elem (atom "link")
                     {[ "title" := "pdf"; "href" := "http://arxiv.org/pdf/first" ]}
                     None [])
               [Elem (atom "link")
                     {[ "title" := "pdf"; "href" := "http://arxiv.org/pdf/second" ]}
                     None []]);
      [reflexivity | reflexivity | | reflexivity].
    repeat constructor. vm_compute. discriminate.
Defined.

End EntryFieldsInstances.

(** ** Dates *)

Section Dates.

Context `{Platform}.

Lemma replace_char_app old new a b :
  Py.replace_char old new (a +:+ b)
  = Py.replace_char old new a +:+ Py.replace_char old new b.
Proof.
  induction a as [|c a IH]; [done|]. simpl. rewrite IH.
  destruct (Ascii.eqb c old); [|done]. by rewrite append_assoc.
Qed.

Lemma replace_char_absent old new s :
  has_char old s = false -> Py.replace_char old new s = s.
Proof.
  induction s as [|c s IH]; [done|]. simpl.
  destruct (Ascii.eqb c old); [done|]. simpl. intros Hs. by rewrite IH.
Qed.

Lemma has_char_app c a b : has_char c (a +:+ b) = has_char c a || has_char c b.
Proof.
  induction a as [|c' a IH]; [done|]. simpl. by rewrite IH, orb_assoc.
Qed.

Lemma replace_char_gone old new s :
  has_char old new = false -> has_char old (Py.replace_char old new s) = false.
Proof.
  intros Hnew. induction s as [|c s IH]; [done|]. simpl.
  rewrite has_char_app, IH, orb_false_r.
  destruct (Ascii.eqb c old) eqn:Hc; [done|]. simpl. by rewrite Hc.
Qed.

Lemma has_char_contains c s :
  has_char c s = true -> contains (String c "") s.
Proof.
  induction s as [|c' s IH]; [done|]. simpl.
  destruct (Ascii.eqb_spec c' c) as [->|Hne]; simpl.
  - intros _. exists 0%nat, "", s. split; reflexivity.
  - intros Hs. destruct (IH Hs) as (i & pre & post & -> & Hi).
    exists (S i), (String c' pre), post. split; [reflexivity|].
    simpl. by rewrite Hi.
Qed.

(** Replacing a character is cutting the text at the character and joining
    the pieces with the new text. *)
Lemma replace_char_join c new pieces :
  pieces <> [] ->
  Forall (fun piece => has_char c piece = false) pieces ->
  Py.replace_char c new (Py.join (String c "") pieces) = Py.join new pieces.
Proof.
  intros Hne Hfree. induction Hfree as [|x pieces Hx Hfree IH]; [done|].
  destruct pieces as [|y pieces].
  - by apply replace_char_absent.
  - change (Py.join (String c "") (x :: y :: pieces))
      with (x +:+ String c "" +:+ Py.join (String c "") (y :: pieces)).
    change (Py.join new (x :: y :: pieces))
      with (x +:+ new +:+ Py.join new (y :: pieces)).
    rewrite !replace_char_app, (replace_char_absent _ _ x Hx), IH by done.
    simpl. by rewrite Ascii.eqb_refl, append_nil_r.
Qed.

Lemma replace_char_pieces c new s :
  exists pieces,
    pieces <> [] /\
    Py.join (String c "") pieces = s /\
    Forall (fun piece => has_char c piece = false) pieces /\
    Py.replace_char c new s = Py.join new pieces.
Proof.
  destruct (split_from_join (String c "") (String.length s) s)
    as (Hne & Hjoin & Hfree); [done|lia|].
  exists (Py.split_from (String.length s) (String c "") s).
  assert (Forall (fun piece => has_char c piece = false)
                 (Py.split_from (String.length s) (String c "") s)) as Hfree'.
  { eapply Forall_impl; [exact Hfree|]. intros piece Hpiece. simpl in Hpiece.
    destruct (has_char c piece) eqn:Hc; [|done].
    destruct Hpiece. by apply has_char_contains. }
  split; [done|]. split; [done|]. split; [done|].
  rewrite <- Hjoin at 1. by apply replace_char_join.
Qed.

(** X12. The dates of a parsed record are what the ISO parser makes of the
    texts of the published and updated elements with every "Z" replaced by
    "+00:00": the text is cut at every "Z" and the pieces are joined by
    "+00:00", so the parser never sees a "Z". A text that ends in its only
    "Z" is parsed with "+00:00" in its place, a text without "Z" is parsed
    as it is. *)
Theorem parsed_dates_normalised entry p :
  entry_fields entry = Some p ->
  exists published_str updated_str,
    find (atom "published") entry ≫= text = Some published_str /\
    find (atom "updated") entry ≫= text = Some updated_str /\
    (forall s parsed,
       (s = published_str /\ parsed = published p) \/
       (s = updated_str /\ parsed = updated p) ->
       (exists pieces,
          pieces <> [] /\
          Py.join "Z" pieces = s /\
          Forall (fun piece => has_char "Z" piece = false) pieces /\
          Py.replace_char "Z" "+00:00" s = Py.join "+00:00" pieces /\
          fromisoformat (Py.join "+00:00" pieces) = Some parsed) /\
       (forall d,
          has_char "Z" d = false ->
          (s = d +:+ "Z" -> fromisoformat (d +:+ "+00:00") = Some parsed) /\
          (s = d -> fromisoformat d = Some parsed))).
Proof.
  intros Hp.
  destruct (entry_fields_inv entry p Hp)
    as (raw & tt & at_ & ps & us & _ & _ & _ & Hpub & Hupd & Hp1 & Hp2 & _).
  exists ps, us. split; [done|]. split; [done|].
  assert (forall s parsed,
            fromisoformat (Py.replace_char "Z" "+00:00" s) = Some parsed ->
            (exists pieces,
               pieces <> [] /\
               Py.join "Z" pieces = s /\
               Forall (fun piece => has_char "Z" piece = false) pieces /\
               Py.replace_char "Z" "+00:00" s = Py.join "+00:00" pieces /\
               fromisoformat (Py.join "+00:00" pieces) = Some parsed) /\
            (forall d,
               has_char "Z" d = false ->
               (s = d +:+ "Z" -> fromisoformat (d +:+ "+00:00") = Some parsed) /\
               (s = d -> fromisoformat d = Some parsed)))
    as Hnorm.
  { intros s parsed Hparsed. split.
    - destruct (replace_char_pieces "Z" "+00:00" s)
        as (pieces & Hne & Hjoin & Hfree & Hrep).
      exists pieces. repeat split; try done. by rewrite <- Hrep.
    - intros d Hd. split.
      + intros ->. rewrite replace_char_app in Hparsed.
        by rewrite (replace_char_absent _ _ d Hd) in Hparsed.
      + intros ->. by rewrite (replace_char_absent _ _ d Hd) in Hparsed. }
  intros s parsed [[-> ->]|[-> ->]]; by apply Hnorm.
Qed.

End Dates.

Section DatesInstances.

Import Sample.

Lemma parsed_dates_normalised_witness :
  exists p,
    @entry_fields platform e1 = Some p /\
    iso "2025-01-01T01:00:00+00:00" = Some (published p).
Proof.
  destruct (@entry_fields platform e1) as [p|] eqn:Hp; [|by vm_compute in Hp].
  exists p. split; [reflexivity|].
  destruct (@parsed_dates_normalised platform e1 p Hp)
    as (ps & us & Hps & _ & Hnorm).
  injection Hps as <-.
  destruct (Hnorm "2025-01-01T01:00:00Z" (published p)
              (or_introl (conj eq_refl eq_refl))) as (_ & Hends).
  destruct (Hends "2025-01-01T01:00:00" eq_refl) as (Hz & _).
  exact (Hz eq_refl).
Defined.

Lemma parsed_authors_witness :
  exists p,
    @entry_fields platform e1 = Some p /\
    Forall2 (fun author name => text <$> find (atom "name") author = Some name)
            (findall (atom "author") e1) (authors p).
Proof.
  destruct (@entry_fields platform e1) as [p|] eqn:Hp; [|by vm_compute in Hp].
  exists p. split; [reflexivity|].
  exact (proj1 (@parsed_authors platform e1) p Hp).
Defined.

End DatesInstances.

(** ** The summarizer, whatever its outcome *)

Section SummarizerFrame.

Context `{Platform}.

(** A batch in two parts: the loop over the whole is the loop over the
    first part, then over the second with what the first has built. *)
Lemma summarize_papers_loop_app self papers1 papers2 :
  forall summarized w,
    summarize_papers_loop self (papers1 ++ papers2) summarized w
    = match summarize_papers_loop self papers1 summarized w with
      | (Returned built, w1) => summarize_papers_loop self papers2 built w1
      | (Raised e, w1) => (Raised e, w1)
      end.
Proof.
  induction papers1 as [|l papers1 IH]; intros summarized w; [done|].
  simpl app. cbn [summarize_papers_loop]. rewrite !bind_run.
  destruct (summarize_paper self l w) as [[s|e] w1]; [|done].
  rewrite !bind_run. destruct (copy l w1) as [[l'|e] w2]; [|done].
  rewrite !bind_run. destruct (modify l' _ w2) as [[[]|e] w3]; [|done].
  apply IH.
Qed.

(** The loop for every answer of the service and every outcome. *)
Lemma summarize_papers_loop_any self papers :
  forall summarized w r w',
    Forall (fun l => is_Some (heap w !! l)) papers ->
    summarize_papers_loop self papers summarized w = (r, w') ->
    clock w' = clock w /\ environ w' = environ w /\ http_log w' = http_log w /\
    heap w ⊆ heap w' /\
    (exists reqs,
       chat_log w' = chat_log w ++ reqs /\
       (length reqs <= length papers)%nat /\
       (forall out, r = Returned out -> length reqs = length papers)) /\
    (forall e, r = Raised e -> e = TypeError).
Proof.
  induction papers as [|l papers IH]; intros summarized w r w' Hvalid Hrun.
  - injection Hrun as <- <-. repeat split; try done.
    exists []. by rewrite app_nil_r.
  - apply Forall_cons in Hvalid as [[p Hl] Hvalid].
    cbn [summarize_papers_loop] in Hrun. rewrite bind_run in Hrun.
    unfold summarize_paper in Hrun. rewrite bind_run, (read_run l p w Hl) in Hrun.
    destruct (_build_prompt p) as [prompt|].
    2:{ injection Hrun as <- <-. repeat split; try done.
        - exists []. rewrite app_nil_r. repeat split; [simpl; lia|done].
        - by intros e [= <-]. }
    rewrite bind_run in Hrun. unfold chat_completions_create in Hrun.
    cbn [mret M_ret ret] in Hrun.
    set (req := chat_request self prompt) in *.
    set (w1 := {| clock := clock w; environ := environ w; heap := heap w;
                  http_log := http_log w; chat_log := chat_log w ++ [req] |}) in *.
    rewrite bind_run in Hrun.
    destruct (copy_run l p w1 Hl) as (l' & w2 & Hcopy & Hfresh & Hheap2 & Hsame2).
    rewrite Hcopy, bind_run in Hrun.
    match type of Hrun with
    | context [modify l' ?f w2] =>
        destruct (modify_run l' f p w2) as (w3 & Hmod & Hheap3 & Hsame3);
          [rewrite Hheap2; apply lookup_insert_eq|]
    end.
    rewrite Hmod in Hrun.
    rewrite Hheap2, insert_insert_eq in Hheap3. simpl in Hfresh, Hheap3.
    assert (heap w ⊆ heap w3) as Hsub
      by (rewrite Hheap3; by apply insert_subseteq).
    destruct Hsame2 as (Hc2 & He2 & Hh2 & Hl2).
    destruct Hsame3 as (Hc3 & He3 & Hh3 & Hl3). simpl in Hc2, He2, Hh2, Hl2.
    destruct (IH _ _ _ _ ltac:(eapply Forall_impl; [exact Hvalid|];
                               intros ? [? ?]; eexists;
                               by eapply lookup_weaken) Hrun)
      as (Hc & He & Hh & Hsub' & (reqs & Hlog & Hlen & Hall) & Hraise).
    split; [congruence|]. split; [congruence|]. split; [congruence|].
    split; [by etrans|]. split; [|done].
    exists (req :: reqs). split.
    { rewrite Hlog, Hl3, Hl2. by rewrite <- app_assoc. }
    split; [simpl; lia|]. intros out Hout. simpl. by rewrite (Hall out Hout).
Qed.

(** X13. However the service answers and however the call ends,
    [summarize_papers] leaves the clock, the environment and the feed
    alone, neither changes nor removes a dictionary (its input among them),
    and sends at most one request per paper, exactly one when it returns;
    no failure of the service leaves it as an exception: the only one it
    raises is the [TypeError] of a prompt that cannot be built. *)
Theorem summarize_papers_frame self papers w :
  Forall (fun l => is_Some (heap w !! l)) papers ->
  clock (summarize_papers self papers w).2 = clock w /\
  environ (summarize_papers self papers w).2 = environ w /\
  http_log (summarize_papers self papers w).2 = http_log w /\
  heap w ⊆ heap (summarize_papers self papers w).2 /\
  (exists reqs,
     chat_log (summarize_papers self papers w).2 = chat_log w ++ reqs /\
     (length reqs <= length papers)%nat /\
     (forall out, (summarize_papers self papers w).1 = Returned out ->
                  length reqs = length papers)) /\
  (forall e, (summarize_papers self papers w).1 = Raised e -> e = TypeError).
Proof.
  intros Hvalid. unfold summarize_papers.
  destruct (summarize_papers_loop self papers [] w) as [r w'] eqn:Hrun.
  exact (summarize_papers_loop_any self papers [] w r w' Hvalid Hrun).
Qed.

(** X14. A paper whose prompt cannot be built ends the batch: when the
    papers before it are summarized regularly, [summarize_papers] raises
    [TypeError] at that paper; the requests for the papers before it have
    been sent, their answers are lost, and no dictionary that existed
    has been changed. *)
Theorem summarize_papers_prompt_aborts self before l after ps p w :
  papers_at w before = Some <$> ps ->
  Forall (fun q => is_Some (_build_prompt q)) ps ->
  heap w !! l = Some p ->
  _build_prompt p = None ->
  exists w',
    summarize_papers self (before ++ l :: after) w = (Raised TypeError, w') /\
    chat_log w' = chat_log w ++ requests self ps /\
    heap w ⊆ heap w'.
Proof.
  intros Hat Hprompts Hl Hp. unfold summarize_papers.
  rewrite summarize_papers_loop_app.
  destruct (summarize_papers_loop_returns self before ps [] w Hat Hprompts)
    as (out & w1 & -> & _ & _ & _ & Hlog & Hsub & _).
  cbn [summarize_papers_loop]. rewrite bind_run. unfold summarize_paper.
  rewrite bind_run, (read_run l p w1) by (by eapply lookup_weaken).
  rewrite Hp. by exists w1.
Qed.

End SummarizerFrame.

Section SummarizerFrameInstances.

Import Sample.

Lemma summarize_papers_frame_witness :
  heap (fetched ∅) ⊆ heap (@summarize_papers platform summarizer [0; 1; 2]%nat (fetched ∅)).2 /\
  http_log (@summarize_papers platform summarizer [0; 1; 2]%nat (fetched ∅)).2
  = http_log (fetched ∅).
Proof.
  destruct (@summarize_papers_frame platform summarizer [0; 1; 2]%nat (fetched ∅))
    as (_ & _ & Hhttp & Hheap & _).
  - repeat constructor; by eexists.
  - split; [exact Hheap | exact Hhttp].
Defined.

Lemma summarize_papers_prompt_aborts_witness :
  exists w',
    @summarize_papers platform summarizer ([] ++ 0%nat :: []) fetched_nameless
    = (Raised TypeError, w') /\
    chat_log w' = [].
Proof.
  destruct (@summarize_papers_prompt_aborts platform summarizer [] 0%nat [] []
              _ fetched_nameless eq_refl (Forall_nil_2 _) eq_refl eq_refl)
    as (w' & Hrun & Hlog & _).
  exists w'. split; [exact Hrun | exact Hlog].
Defined.

End SummarizerFrameInstances.

(** ** Summaries, prompts and the credential *)

Section SummariesAndPrompts.

Context `{Platform}.

Lemma summary_or_sentinel_good answer :
  summary_or_sentinel (response_summary answer) <> "" /\
  stripped (summary_or_sentinel (response_summary answer)).
Proof.
  assert ("Summary unavailable" <> "" /\ stripped "Summary unavailable") as Hsentinel.
  { split; [done|]. split; intros c [= <-]; reflexivity. }
  destruct answer as [|[|[content|] choices]]; try exact Hsentinel.
  simpl. destruct (strip_spec content) as (_ & _ & _ & _ & _ & Hstripped).
  destruct (Py.strip content) as [|c s] eqn:Hs; [exact Hsentinel|].
  split; [done|]. exact Hstripped.
Qed.

Lemma summarized_records_good self log ps :
  Forall (fun q => exists s, summary q = Some s /\ s <> "" /\ stripped s)
         (summarized_records self log ps).
Proof.
  revert log. induction ps as [|p ps IH]; intros log; [constructor|].
  cbn [summarized_records]. destruct (_build_prompt p); [|constructor].
  constructor; [|apply IH]. eexists. split; [reflexivity|].
  apply summary_or_sentinel_good.
Qed.

(** X15. Every record [summarize_papers] returns has a summary, and that
    summary is never empty and neither begins nor ends with whitespace,
    whether it is the text of the service or "Summary unavailable". *)
Theorem summaries_never_empty self papers ps w :
  papers_at w papers = Some <$> ps ->
  Forall (fun p => is_Some (_build_prompt p)) ps ->
  exists out w' qs,
    summarize_papers self papers w = (Returned out, w') /\
    papers_at w' out = Some <$> qs /\
    length qs = length papers /\
    Forall (fun q => exists s, summary q = Some s /\ s <> "" /\ stripped s) qs.
Proof.
  intros Hat Hprompts. unfold summarize_papers.
  destruct (summarize_papers_loop_returns self papers ps [] w Hat Hprompts)
    as (out & w' & Hrun & _ & _ & _ & _ & _ & _ & _ & Hout).
  exists out, w', (summarized_records self (chat_log w) ps).
  split; [done|]. split; [done|]. split.
  - rewrite length_summarized_records by done.
    apply (f_equal length) in Hat. unfold papers_at in Hat.
    by rewrite !length_fmap in Hat.
  - apply summarized_records_good.
Qed.

Lemma join_items_is_Some sep parts :
  is_Some (Py.join_items sep parts) <-> Forall is_Some parts.
Proof.
  unfold Py.join_items. rewrite fmap_is_Some, mapM_is_Some.
  apply Forall_proper; [|done]. by intros [x|].
Qed.

(** X16. A prompt can be built exactly when each of the first three authors
    has a name; an author without name further down does no harm. The
    prompt is made of the title, the abstract, the first three authors and
    of whether there are more: two papers that agree on these have the
    same prompt. *)
Theorem build_prompt_authors p :
  (is_Some (_build_prompt p) <-> Forall is_Some (take 3 (authors p))) /\
  (forall q,
     title q = title p -> abstract q = abstract p ->
     take 3 (authors q) = take 3 (authors p) ->
     ((3 < length (authors q))%nat <-> (3 < length (authors p))%nat) ->
     _build_prompt q = _build_prompt p).
Proof.
  split.
  - unfold _build_prompt. rewrite <- join_items_is_Some with (sep := ", ").
    destruct (Py.join_items ", " (take 3 (authors p))); simpl; [|done].
    split; intros _; by eexists.
  - intros q Htitle Habs Htake Hmore. unfold _build_prompt.
    rewrite Htitle, Habs, Htake.
    destruct (Py.join_items ", " (take 3 (authors p))) as [joined|]; [|done].
    simpl. destruct (Nat.ltb_spec 3 (length (authors q))) as [Hq|Hq],
             (Nat.ltb_spec 3 (length (authors p))) as [Hp|Hp];
      try done; lia.
Qed.

(** X17. An empty credential counts as none: with [OPENAI_API_KEY] set to
    the empty string the constructor raises [ValueError] as well, every
    paper gets the summary "AI summary unavailable (no API key)" in place,
    and no request is sent to the service. *)
Theorem empty_credential_placeholders config papers ps w :
  environ w !! "OPENAI_API_KEY" = Some "" ->
  papers_at w papers = Some <$> ps ->
  PaperSummarizer__init__ (openai_model config) (openai_max_tokens config)
    (openai_temperature config) w = (Raised ValueError, w) /\
  exists w',
    summarize_stage config papers w = (Returned papers, w') /\
    chat_log w' = chat_log w /\
    papers_at w' papers = Some <$> (set_summary NO_KEY_SUMMARY <$> ps).
Proof.
  intros Hkey Hat.
  assert (PaperSummarizer__init__ (openai_model config) (openai_max_tokens config)
            (openai_temperature config) w = (Raised ValueError, w)) as Hinit.
  { unfold PaperSummarizer__init__. rewrite bind_run. unfold getenv.
    by rewrite Hkey. }
  split; [done|]. unfold summarize_stage. rewrite bind_run.
  unfold try. rewrite Hinit, bind_run.
  destruct (add_placeholders_run papers w) as (w' & Hrun & Hsame & Hheap).
  { apply Forall_forall. intros l Hl.
    apply list_elem_of_lookup in Hl as [i Hi].
    apply (f_equal (fun x => x !! i)) in Hat. unfold papers_at in Hat.
    rewrite !list_lookup_fmap, Hi in Hat. simpl in Hat.
    destruct (ps !! i); [|done]. injection Hat as ->. by eexists. }
  rewrite Hrun. exists w'. split; [done|].
  split; [by destruct Hsame as (_ & _ & _ & ?)|].
  apply (papers_at_placeholders w); [done|].
  intros l Hl. by rewrite Hheap, decide_True.
Qed.

(** X18. With a credential, the step of [run_digest] is [summarize_papers]
    with a summarizer made of the configuration: the fetched dictionaries
    stay as they were, the result is made of new ones, and every request
    carries the configured model, token cap and temperature, the fixed
    system message and the prompt of its paper. *)
Theorem summarize_stage_with_credential config papers ps w key :
  environ w !! "OPENAI_API_KEY" = Some key ->
  key <> "" ->
  papers_at w papers = Some <$> ps ->
  Forall (fun p => is_Some (_build_prompt p)) ps ->
  exists out w' reqs,
    summarize_stage config papers w = (Returned out, w') /\
    summarize_stage config papers w
    = summarize_papers {| model := openai_model config;
                          max_tokens := openai_max_tokens config;
                          temperature := openai_temperature config;
                          client := key |} papers w /\
    length out = length papers /\
    Forall (fun l => heap w !! l = None) out /\
    papers_at w' papers = Some <$> ps /\
    chat_log w' = chat_log w ++ reqs /\
    Forall2 (fun p req => exists prompt,
                _build_prompt p = Some prompt /\
                req = {| chat_model := openai_model config;
                         chat_messages := [("system", SYSTEM_CONTENT);
                                           ("user", prompt)];
                         chat_max_tokens := openai_max_tokens config;
                         chat_temperature := openai_temperature config |})
            ps reqs.
Proof.
  intros Hkey Hne Hat Hprompts.
  set (self := {| model := openai_model config;
                  max_tokens := openai_max_tokens config;
                  temperature := openai_temperature config; client := key |}).
  assert (summarize_stage config papers w = summarize_papers self papers w) as Hstage.
  { unfold summarize_stage. rewrite bind_run. unfold try, PaperSummarizer__init__.
    rewrite bind_run. unfold getenv. rewrite Hkey. by destruct key. }
  unfold summarize_papers in Hstage |- *.
  destruct (summarize_papers_loop_returns self papers ps [] w Hat Hprompts)
    as (out & w' & Hrun & _ & _ & _ & Hlog & Hsub & Hnew & _ & Hout).
  exists out, w', (requests self ps). rewrite Hstage.
  split; [done|]. split; [done|]. split.
  { apply (f_equal length) in Hout, Hat. unfold papers_at in Hout, Hat.
    rewrite !length_fmap in Hout, Hat.
    by rewrite Hout, Hat, length_summarized_records. }
  split; [done|]. split; [by apply (papers_at_mono w)|]. split; [done|].
  clear -Hprompts. induction Hprompts as [|p ps [prompt Hp] _ IH]; [constructor|].
  rewrite (requests_cons self p prompt ps Hp). constructor; [|done]. by exists prompt.
Qed.

End SummariesAndPrompts.

Section SummariesAndPromptsInstances.

Import Sample.

Lemma summaries_never_empty_witness :
  exists out w' qs,
    @summarize_papers platform summarizer [0; 1; 2]%nat (fetched ∅)
    = (Returned out, w') /\
    papers_at w' out = Some <$> qs /\
    Forall (fun q => exists s, summary q = Some s /\ s <> "" /\ stripped s) qs.
Proof.
  destruct (@summaries_never_empty platform summarizer [0; 1; 2]%nat
              [paper1; paper2; paper3] (fetched ∅) eq_refl sample_prompts)
    as (out & w' & qs & Hrun & Hat & _ & Hgood).
  exists out, w', qs. exact (conj Hrun (conj Hat Hgood)).
Defined.

Lemma build_prompt_authors_witness :
  is_Some (_build_prompt paper1) /\
  _build_prompt (set_summary "x" paper1) = _build_prompt paper1.
Proof.
  destruct (build_prompt_authors paper1) as [Hsome Hsame]. split.
  - apply Hsome. repeat constructor; by eexists.
  - apply Hsame; [reflexivity..|done].
Defined.

Lemma empty_credential_placeholders_witness :
  exists w',
    @summarize_stage platform config [0; 1; 2]%nat
      (fetched {[ "OPENAI_API_KEY" := "" ]}) = (Returned [0; 1; 2]%nat, w') /\
    chat_log w' = [].
Proof.
  destruct (@empty_credential_placeholders platform config [0; 1; 2]%nat
              [paper1; paper2; paper3] (fetched {[ "OPENAI_API_KEY" := "" ]})
              (lookup_singleton_eq _ _) eq_refl)
    as (_ & w' & Hrun & Hlog & _).
  exists w'. exact (conj Hrun Hlog).
Defined.

Lemma summarize_stage_with_credential_witness :
  exists out w',
    @summarize_stage platform config [0; 1; 2]%nat
      (fetched {[ "OPENAI_API_KEY" := "sk-sample" ]}) = (Returned out, w') /\
    length out = 3%nat /\
    papers_at w' [0; 1; 2]%nat = Some <$> [paper1; paper2; paper3].
Proof.
  destruct (@summarize_stage_with_credential platform config [0; 1; 2]%nat
              [paper1; paper2; paper3] (fetched {[ "OPENAI_API_KEY" := "sk-sample" ]})
              "sk-sample" (lookup_singleton_eq _ _) ltac:(discriminate)
              eq_refl sample_prompts)
    as (out & w' & reqs & Hrun & _ & Hlen & _ & Hat & _).
  exists out, w'. exact (conj Hrun (conj Hlen Hat)).
Defined.

End SummariesAndPromptsInstances.

(** ** The query text *)

Section QueryText.

Lemma contains_intro sub pre post : contains sub (pre +:+ sub +:+ post).
Proof. exists (String.length pre). by exists pre, post. Qed.

Lemma contains_refl s : contains s s.
Proof.
  pose proof (contains_intro s "" "") as Hs. simpl in Hs.
  by rewrite append_nil_r in Hs.
Qed.

Lemma contains_app_r sub a b : contains sub b -> contains sub (a +:+ b).
Proof.
  intros (i & pre & post & -> & _). rewrite <- append_assoc.
  apply contains_intro.
Qed.

Lemma contains_app_l sub a b : contains sub a -> contains sub (a +:+ b).
Proof.
  intros (i & pre & post & -> & _). rewrite !append_assoc.
  apply contains_intro.
Qed.

Lemma contains_join sub sep parts :
  sub ∈ parts -> contains sub (Py.join sep parts).
Proof.
  induction parts as [|x [|y parts] IH]; intros Hin.
  - by apply elem_of_nil in Hin.
  - apply list_elem_of_singleton in Hin as ->. apply contains_refl.
  - change (contains sub (x +:+ sep +:+ Py.join sep (y :: parts))).
    apply elem_of_cons in Hin as [->|Hin].
    + apply contains_app_l, contains_refl.
    + by apply contains_app_r, contains_app_r, IH.
Qed.

Lemma contains_trans a b c : contains a b -> contains b c -> contains a c.
Proof.
  intros (i & pre & post & -> & _) (j & pre' & post' & -> & _).
  rewrite !append_assoc, <- (append_assoc pre'). apply contains_intro.
Qed.

Lemma keyword_part_contains group kw :
  kw ∈ group -> contains ("all:" +:+ kw) (keyword_part group).
Proof.
  intros Hin. unfold keyword_part.
  destruct group as [|t1 [|t2 ts]].
  - by apply elem_of_nil in Hin.
  - apply list_elem_of_singleton in Hin as ->. apply contains_refl.
  - cbn [length Nat.eqb]. apply contains_app_r, contains_app_l, contains_join.
    by apply (list_elem_of_fmap_2 (fun kw => "all:" +:+ kw)).
Qed.

(** X19. The query holds the clause "cat:c" of every category c and the
    clause "all:k" of every keyword k of every group, and the category
    part and the keyword part are always joined by ") AND (". *)
Theorem build_query_contains self keyword_groups :
  (forall c, c ∈ categories self ->
             contains ("cat:" +:+ c) (build_query self keyword_groups)) /\
  (forall group kw, group ∈ keyword_groups -> kw ∈ group ->
             contains ("all:" +:+ kw) (build_query self keyword_groups)) /\
  contains ") AND (" (build_query self keyword_groups).
Proof.
  unfold build_query. rewrite keyword_parts_loop. simpl app.
  split; [|split].
  - intros c Hc. apply contains_app_r, contains_app_l, contains_join.
    by apply (list_elem_of_fmap_2 (fun cat => "cat:" +:+ cat)).
  - intros group kw Hgroup Hkw.
    apply contains_app_r, contains_app_r, contains_app_r, contains_app_l.
    apply (contains_trans _ (keyword_part group));
      [by apply keyword_part_contains|].
    apply contains_join. by apply (list_elem_of_fmap_2 keyword_part).
  - apply contains_app_r, contains_app_r, contains_app_l, contains_refl.
Qed.

Lemma keyword_part_single k : keyword_part [k] = "all:" +:+ k.
Proof. reflexivity. Qed.

Lemma join_cons2 sep x y parts :
  Py.join sep (x :: y :: parts) = x +:+ sep +:+ Py.join sep (y :: parts).
Proof. reflexivity. Qed.

(** X20. Nothing is escaped: the text of a category or of a keyword goes
    into the query as it is. A category "c1 OR cat:c2" gives the query of
    the two categories c1 and c2, and a one-keyword group "k1 OR all:k2"
    gives the query of the two groups [k1] and [k2]. *)
Theorem build_query_no_escaping self1 self2 c1 c2 cats k1 k2 groups :
  categories self1 = c1 :: c2 :: cats ->
  categories self2 = (c1 +:+ " OR cat:" +:+ c2) :: cats ->
  build_query self1 groups = build_query self2 groups /\
  build_query self1 ([k1] :: [k2] :: groups)
  = build_query self1 ([k1 +:+ " OR all:" +:+ k2] :: groups).
Proof.
  intros H1 H2. unfold build_query. rewrite H1, H2, !keyword_parts_loop.
  simpl app. split.
  - do 2 f_equal. cbn [map]. rewrite join_cons2.
    destruct cats as [|c3 cats]; cbn [map].
    + by rewrite !append_assoc.
    + rewrite !join_cons2. by rewrite !append_assoc.
  - do 4 f_equal. cbn [map]. rewrite !keyword_part_single.
    destruct groups as [|g groups]; cbn [map];
      rewrite ?join_cons2, ?append_assoc; reflexivity.
Qed.

End QueryText.

Section QueryTextInstances.

Import Sample.

Lemma build_query_contains_witness :
  contains "cat:physics.comp-ph" (build_query fetcher [["simulation"]]) /\
  contains "all:simulation" (build_query fetcher [["simulation"]]).
Proof.
  destruct (build_query_contains fetcher [["simulation"]]) as (Hcat & Hkw & _).
  split.
  - apply Hcat. apply list_elem_of_further, list_elem_of_here.
  - apply (Hkw ["simulation"]); apply list_elem_of_here.
Defined.

Lemma build_query_no_escaping_witness :
  build_query fetcher [["simulation"]]
  = build_query {| categories := ["cond-mat.mtrl-sci OR cat:physics.comp-ph"];
                   time_window_hours := 24; max_results := 50;
                   cutoff_date := Aware T0 0 |} [["simulation"]].
Proof.
  exact (proj1 (build_query_no_escaping fetcher
                  {| categories := ["cond-mat.mtrl-sci OR cat:physics.comp-ph"];
                     time_window_hours := 24; max_results := 50;
                     cutoff_date := Aware T0 0 |}
                  "cond-mat.mtrl-sci" "physics.comp-ph" [] "a" "b"
                  [["simulation"]] eq_refl eq_refl)).
Defined.

End QueryTextInstances.

(** ** A whole run *)

Section WholeRun.

Context `{Platform}.

(** X21. A run with a credential, a fetcher that could be made, a feed that
    answers and papers in the window: [run_digest] sends one request to the
    feed and one to the service for each paper the date filter keeps, and
    hands on one new record per kept paper, in feed order, each the fetched
    record with a summary added. *)
Theorem run_digest_with_credential config w self data root key :
  let kept :=
    filter (fun p => recent (clock w - timedelta_hours (arxiv_time_window_hours config)) p)
           (omap entry_fields (findall (atom "entry") root)) in
  ArxivFetcher__init__ (arxiv_categories config) (arxiv_time_window_hours config)
    (arxiv_max_results config) w = (Returned self, w) ->
  feed_reply (http_log w) (request_url self (keywords config)) = HttpBody data ->
  ET_fromstring data = Some root ->
  Forall (fun e => forall p, entry_fields e = Some p -> aware (published p))
         (findall (atom "entry") root) ->
  kept <> [] ->
  Forall (fun p => is_Some (_build_prompt p)) kept ->
  environ w !! "OPENAI_API_KEY" = Some key ->
  key <> "" ->
  exists out w' qs,
    run_digest config w = (Returned (Some out), w') /\
    http_log w' = http_log w ++ [request_url self (keywords config)] /\
    length (chat_log w') = (length (chat_log w) + length kept)%nat /\
    papers_at w' out = Some <$> qs /\
    Forall2 (fun p q => agree_except_summary p q /\ is_Some (summary q)) kept qs.
Proof.
  intros kept Hinit Hreply Hxml Haware Hkept Hprompts Hkey Hne.
  pose proof (ArxivFetcher_init_returned _ _ _ _ _ _ Hinit) as (_ & _ & Hself).
  assert (cutoff_date self
          = Aware (clock w - timedelta_hours (arxiv_time_window_hours config)) 0)
    as Hcut by (by rewrite Hself).
  destruct (fetch_papers_returns self (keywords config) w data root _ 0
              Hreply Hxml Hcut Haware)
    as (ls & w1 & Hfetch & Hhttp & _ & Henv & Hchat & _ & Hat).
  fold kept in Hat.
  set (summarizer := {| model := openai_model config;
                        max_tokens := openai_max_tokens config;
                        temperature := openai_temperature config;
                        client := key |}).
  destruct (summarize_papers_loop_returns summarizer ls kept [] w1 Hat Hprompts)
    as (out & w' & Hrun & _ & _ & Hhttp' & Hlog & _ & _ & _ & Hout).
  exists out, w', (summarized_records summarizer (chat_log w1) kept).
  split.
  { unfold run_digest. rewrite bind_run, Hinit, bind_run, Hfetch.
    destruct ls as [|l ls].
    { destruct kept; [done|discriminate Hat]. }
    rewrite bind_run. unfold summarize_stage. rewrite bind_run.
    unfold try, PaperSummarizer__init__. rewrite bind_run. unfold getenv.
    rewrite Henv, Hkey.
    assert (forall A (a b : A), match key with "" => a | String _ _ => b end = b)
      as Hmatch by (intros; by destruct key).
    rewrite Hmatch. cbn [mret M_ret ret]. fold summarizer.
    unfold summarize_papers. by rewrite Hrun. }
  split; [congruence|]. split.
  { rewrite Hlog, length_app, Hchat. by rewrite length_requests. }
  split; [done|]. by apply summarized_records_agree.
Qed.

End WholeRun.

Section WholeRunInstances.

Import Sample.

Lemma run_digest_with_credential_witness :
  exists out w',
    @run_digest platform config
      (world (T0 + 24 * hour) {[ "OPENAI_API_KEY" := "sk-sample" ]})
    = (Returned (Some out), w') /\
    length (http_log w') = 1%nat /\ length (chat_log w') = 4%nat.
Proof.
  destruct (@run_digest_with_credential platform config
              (world (T0 + 24 * hour) {[ "OPENAI_API_KEY" := "sk-sample" ]})
              {| categories := ["cond-mat.mtrl-sci"]; time_window_hours := 24;
                 max_results := 50;
                 cutoff_date := Aware (T0 + 24 * hour - timedelta_hours 24) 0 |}
              "<feed>" feed5 "sk-sample")
    as (out & w' & qs & Hrun & Hhttp & Hchat & _).
  - reflexivity.
  - reflexivity.
  - reflexivity.
  - apply sample_entries_aware. by right.
  - vm_compute. discriminate.
  - vm_compute. repeat constructor; by eexists.
  - apply lookup_singleton_eq.
  - discriminate.
  - exists out, w'. split; [exact Hrun|]. split.
    + rewrite Hhttp. reflexivity.
    + rewrite Hchat. vm_compute. reflexivity.
Defined.

End WholeRunInstances.
